(** * ES|QL tabular results to GeoJSON

    A shallow embedding of [convertToGeoJson]
    (x-pack/plugins/maps/public/classes/sources/esql_source/convert_to_geojson.ts)
    together with the properties its specification states about it.

    The function takes an ES|QL search response (column descriptors plus
    row-major values), asks the geometry-column locator for the index of
    the geometry column, and turns every row whose value at that index is
    truthy and parses as well-known text into a GeoJSON feature whose
    properties are the remaining cells of the row keyed by column name. *)

From Stdlib Require Import SpecFloat.
From stdpp Require Import base option list sorting strings gmap.

Local Open Scope string_scope.
Local Open Scope list_scope.
Local Open Scope nat_scope.
Local Set Warnings "-register-all".

(** ** JavaScript values *)

(** The cells of a response row are JSON values; reading an array out of
    range adds [undefined].  Numbers are IEEE 754 doubles, kept here in the
    standard library's specification format. *)
Inductive Value : Type :=
  | VUndefined
  | VNull
  | VBoolean (b : bool)
  | VNumber (x : spec_float)
  | VString (s : string)
  | VArray (items : list Value)
  | VObject (fields : list (string * Value)).

(** ToBoolean: [undefined], [null], [false], [+0], [-0], [NaN] and the empty
    string are falsy, everything else is truthy. *)
Definition truthy (v : Value) : bool :=
  match v with
  | VUndefined | VNull => false
  | VBoolean b => b
  | VNumber (S754_zero _) | VNumber S754_nan => false
  | VNumber _ => true
  | VString s => negb (String.eqb s "")
  | VArray _ | VObject _ => true
  end.

(** An integer-valued number, for writing concrete inputs. *)
Definition num (z : Z) : Value :=
  match z with
  | Z0 => VNumber (S754_zero false)
  | Zpos p => VNumber (S754_finite false p 0)
  | Zneg p => VNumber (S754_finite true p 0)
  end.

(** [xs[i]]: an index past the end reads [undefined]. *)
Definition at_index (xs : list Value) (i : nat) : Value :=
  default VUndefined (xs !! i).

(** ** Exceptions and completions *)

Inductive Exception : Type :=
  | ColumnResolutionError
  | TypeError
  | ParseFault (message : string).

(** The result of evaluating a block: it returns or it throws. *)
Inductive Completion (A : Type) : Type :=
  | Normal (a : A)
  | Throw (e : Exception).
Arguments Normal {A} a.
Arguments Throw {A} e.

Definition bind {A B} (c : Completion A) (k : A → Completion B) : Completion B :=
  match c with
  | Normal a => k a
  | Throw e => Throw e
  end.

Notation "'let*' x := c 'in' k" := (bind c (λ x, k))
  (at level 10, x name, c at level 100, k at level 200).

(** ** The data model *)

Record ESQLColumn : Type := { name : string; type : string }.

Definition ESQLRow : Type := list Value.

Record ESQLSearchReponse : Type :=
  { columns : list ESQLColumn; values : list ESQLRow }.

(** What [[[Prototype]]] of a properties object points to. *)
Inductive Prototype : Type :=
  | ObjectPrototype
  | PrototypeValue (v : Value).

(** [GeoJsonProperties] built from the literal [{}]: the own enumerable
    properties, and the prototype link. *)
Record GeoJsonProperties : Type :=
  { own : gmap string Value; proto : Prototype }.

(** [{ type: 'Feature', geometry, properties }]; the constant tag is carried
    by the record type. *)
Record Feature : Type :=
  { geometry : Value; properties : GeoJsonProperties }.

(** [{ type: 'FeatureCollection', features }]. *)
Record FeatureCollection : Type := { features : list Feature }.

(** The literal [{}]. *)
Definition emptyObject : GeoJsonProperties :=
  {| own := ∅; proto := ObjectPrototype |}.

(** Whether an object with this prototype link inherits the [__proto__]
    accessor of [Object.prototype].  It does unless the link is [null] or
    leads to an object with an own property of that name, as [JSON.parse]
    creates for the key ["__proto__"]; arrays and other parsed objects
    inherit from [Object.prototype]. *)
Definition inheritsProtoAccessor (p : Prototype) : bool :=
  match p with
  | ObjectPrototype => true
  | PrototypeValue VNull => false
  | PrototypeValue (VObject fields) => negb (bool_decide ("__proto__" ∈ fields.*1))
  | PrototypeValue _ => true
  end.

(** [properties[key] = v] on an object created by [{}].  The assignment
    creates or overwrites an own property, except when [key] is
    ["__proto__"] and the accessor of that name is inherited: the accessor
    replaces the prototype link when [v] is an object or [null], does
    nothing otherwise, and creates no own property. *)
Definition setProperty (o : GeoJsonProperties) (key : string) (v : Value)
  : GeoJsonProperties :=
  if bool_decide (key = "__proto__") && inheritsProtoAccessor (proto o) then
    match v with
    | VNull | VArray _ | VObject _ => {| own := own o; proto := PrototypeValue v |}
    | _ => o
    end
  else {| own := <[key := v]> (own o); proto := proto o |}.

(** A [for] loop over the indices [js], threading the loop state and
    stopping at the first exception. *)
Fixpoint forEach {S : Type} (body : nat → S → Completion S) (js : list nat) (s : S)
  : Completion S :=
  match js with
  | [] => Normal s
  | j :: js' => let* s' := body j s in forEach body js' s'
  end.

(** What one iteration of the row loop did. *)
Inductive RowOutcome : Type :=
  | Skipped                 (* [continue] on a falsy geometry cell *)
  | Swallowed (e : Exception) (* the [catch] block *)
  | Pushed (f : Feature).   (* [features.push] *)

Section Converter.

(** [parse] of the [wellknown] package: returns a value or throws. *)
Variable parse : Value → Completion Value.

(** The geometry-column naming convention of the locator. *)
Variable isGeometryColumnName : string → bool.

(** Modelled from the spec: the candidate columns of the locator, which is
    not among the sources; the indices of the columns whose name matches
    the geometry-column naming convention, in column order. *)
Definition geometryCandidates (cols : list ESQLColumn) : list nat :=
  filter (λ j, bool_decide (isGeometryColumnName <$> (name <$> cols !! j) = Some true))
         (seq 0 (length cols)).

(** Modelled from the spec: [getGeometryColumnIndex] of [./esql_utils],
    which is not among the sources.  It returns the index of the single
    column recognised as the geometry column and fails with a column
    resolution error when none or more than one column matches the
    geometry-column naming convention. *)
Definition getGeometryColumnIndex (cols : list ESQLColumn) : Completion nat :=
  match geometryCandidates cols with
  | [index] => Normal index
  | _ => Throw ColumnResolutionError
  end.

(** Lines 26-32: one iteration of the properties loop. *)
Definition propertiesStep (geometryIndex : nat) (cols : list ESQLColumn)
    (hit : ESQLRow) (j : nat) (props : GeoJsonProperties)
  : Completion GeoJsonProperties :=
  if decide (j = geometryIndex) then Normal props
  else match cols !! j with
       | None => Throw TypeError
       | Some column => Normal (setProperty props (name column) (at_index hit j))
       end.

(** Lines 25-32: [properties] after [for (j = 0; j < hit.length; j++)]. *)
Definition buildProperties (geometryIndex : nat) (cols : list ESQLColumn)
    (hit : ESQLRow) : Completion GeoJsonProperties :=
  forEach (propertiesStep geometryIndex cols hit) (seq 0 (length hit)) emptyObject.

(** Lines 24-37: the body of the [try] block. *)
Definition tryBlock (geometryIndex : nat) (cols : list ESQLColumn)
    (hit : ESQLRow) (wkt : Value) : Completion Feature :=
  let* geometry := parse wkt in
  let* properties := buildProperties geometryIndex cols hit in
  Normal {| geometry := geometry; properties := properties |}.

(** Lines 18-40: one iteration of the row loop. *)
Definition processRow (geometryIndex : nat) (cols : list ESQLColumn)
    (hit : ESQLRow) : RowOutcome :=
  let wkt := at_index hit geometryIndex in
  if negb (truthy wkt) then Skipped
  else match tryBlock geometryIndex cols hit wkt with
       | Normal f => Pushed f
       | Throw e => Swallowed e
       end.

(** The effect of one row on the [features] array. *)
Definition rowStep (geometryIndex : nat) (cols : list ESQLColumn)
    (acc : list Feature) (hit : ESQLRow) : list Feature :=
  match processRow geometryIndex cols hit with
  | Pushed f => acc ++ [f]
  | Skipped | Swallowed _ => acc
  end.

(** Lines 16-41: [features] after the row loop. *)
Definition collectFeatures (geometryIndex : nat) (cols : list ESQLColumn)
    (rows : list ESQLRow) : list Feature :=
  foldl (rowStep geometryIndex cols) [] rows.

Definition convertToGeoJson (resp : ESQLSearchReponse) : Completion FeatureCollection :=
  let* geometryIndex := getGeometryColumnIndex (columns resp) in
  Normal {| features := collectFeatures geometryIndex (columns resp) (values resp) |}.

End Converter.

(** ** The risk summary helpers

    The pure helpers of the risk summary panel component
    ([RiskSummaryComponent]): which entity a risk score is about, and what
    the panel derives from it. *)

(** The own property [key] of an object given by its property list, or
    [undefined]. *)
Fixpoint lookupField (fields : list (string * Value)) (key : string) : Value :=
  match fields with
  | [] => VUndefined
  | (k, v) :: rest => if String.eqb k key then v else lookupField rest key
  end.

(** [v.key], for a key that no built-in prototype defines ([user], [host],
    [name]): the read throws on [undefined] and [null], finds the own
    property of an object, and is [undefined] on every other value. *)
Definition getProperty (v : Value) (key : string) : Completion Value :=
  match v with
  | VUndefined | VNull => Throw TypeError
  | VObject fields => Normal (lookupField fields key)
  | _ => Normal VUndefined
  end.

(** [v !== undefined]. *)
Definition isDefined (v : Value) : bool :=
  match v with
  | VUndefined => false
  | _ => true
  end.

(** [v?.key]. *)
Definition optionalProperty (v : Value) (key : string) : Completion Value :=
  match v with
  | VUndefined | VNull => Normal VUndefined
  | _ => getProperty v key
  end.

(** [v ?? fallback]. *)
Definition nullishCoalesce (v fallback : Value) : Value :=
  match v with
  | VUndefined | VNull => fallback
  | _ => v
  end.

(** Lines 54-58: [!!riskData && riskData.user !== undefined]. *)
Definition isUserRiskData (riskData : Value) : Completion bool :=
  if truthy riskData then
    let* user := getProperty riskData "user" in
    Normal (isDefined user)
  else Normal false.

(** Lines 60-70. *)
Definition getEntityData (riskData : Value) : Completion Value :=
  if negb (truthy riskData) then Normal VUndefined
  else
    let* isUser := isUserRiskData riskData in
    if isUser then getProperty riskData "user" else getProperty riskData "host".

(** Line 79: [data && data.length > 0 ? data[0] : undefined], for [data] an
    array or [undefined]. *)
Definition riskData (data : option (list Value)) : Value :=
  match data with
  | Some (first :: _) => first
  | Some [] | None => VUndefined
  end.

(** Line 87: [entityData?.name ?? '']. *)
Definition entityName (entityData : Value) : Completion Value :=
  let* name := optionalProperty entityData "name" in
  Normal (nullishCoalesce name (VString "")).

(** Line 88: [isUserRiskData(riskData) ? 'user.name' : 'host.name']. *)
Definition fieldName (riskData : Value) : Completion string :=
  let* isUser := isUserRiskData riskData in
  Normal (if isUser then "user.name" else "host.name").

(** ** Concrete inputs *)

(** The geometry [{ type: 'Point', coordinates: [1, 2] }]. *)
Definition pointOneTwo : Value :=
  VObject [("type", VString "Point"); ("coordinates", VArray [num 1; num 2])].

(** A stand-in for the WKT parser on the text used below: it reads
    [POINT (1 2)] and throws on any other argument. *)
Definition sampleParse (v : Value) : Completion Value :=
  match v with
  | VString s =>
      if String.eqb s "POINT (1 2)" then Normal pointOneTwo
      else Throw (ParseFault "invalid WKT")
  | _ => Throw TypeError
  end.

(** A parser that reports malformed text by returning [null]. *)
Definition nullOnFailureParse (v : Value) : Completion Value :=
  match sampleParse v with
  | Normal g => Normal g
  | Throw _ => Normal VNull
  end.

(** A naming convention: the geometry column is the one called [geometry]. *)
Definition sampleIsGeometryColumnName (n : string) : bool := String.eqb n "geometry".

Definition column (n : string) : ESQLColumn := {| name := n; type := "keyword" |}.
Definition geometryColumn : ESQLColumn := {| name := "geometry"; type := "geo_point" |}.

(** The first example scenario of the specification. *)
Definition scenarioResponse : ESQLSearchReponse :=
  {| columns := [geometryColumn; column "count"];
     values := [ [VString "POINT (1 2)"; num 5];
                 [VNull; num 9];
                 [VString "NOT WKT"; num 3] ] |}.

(** Two columns that share the name [id]. *)
Definition duplicateNameResponse : ESQLSearchReponse :=
  {| columns := [geometryColumn; column "id"; column "id"];
     values := [ [VString "POINT (1 2)"; num 1; num 2] ] |}.

(** A row that stops before the last column. *)
Definition shortRowResponse : ESQLSearchReponse :=
  {| columns := [geometryColumn; column "id"; column "id"];
     values := [ [VString "POINT (1 2)"; num 7] ] |}.

(** A row with one cell more than there are columns. *)
Definition longRowResponse : ESQLSearchReponse :=
  {| columns := [geometryColumn];
     values := [ [VString "POINT (1 2)"; num 5] ] |}.

(** No column is called [geometry]. *)
Definition noGeometryResponse : ESQLSearchReponse :=
  {| columns := [column "count"];
     values := [ [num 5] ] |}.

(** A non-geometry column called [__proto__]. *)
Definition protoNameResponse : ESQLSearchReponse :=
  {| columns := [geometryColumn; column "__proto__"; column "count"];
     values := [ [VString "POINT (1 2)"; num 4; num 5] ] |}.

(** The feature [{ geometry: Point(1, 2), properties }] with the given own
    properties. *)
Definition pointFeature (props : gmap string Value) : Feature :=
  {| geometry := pointOneTwo;
     properties := {| own := props; proto := ObjectPrototype |} |}.

(** What the first example scenario converts to. *)
Definition scenarioCollection : FeatureCollection :=
  {| features := [ pointFeature {[ "count" := num 5 ]} ] |}.

(** A user risk score and a host risk score. *)
Definition userRiskScore : Value :=
  VObject [("@timestamp", VString "2023-01-01T00:00:00.000Z");
           ("user", VObject [("name", VString "alice")])].

Definition hostRiskScore : Value :=
  VObject [("@timestamp", VString "2023-01-01T00:00:00.000Z");
           ("host", VObject [("name", VString "web-01")])].

(** A well-formed response with two rows and three distinctly named
    columns. *)
Definition twoRowResponse : ESQLSearchReponse :=
  {| columns := [column "id"; geometryColumn; column "count"];
     values := [ [num 1; VString "POINT (1 2)"; num 5];
                 [num 2; VString "POINT (1 2)"; num 6] ] |}.

(** A cell under a column called [__proto__] that holds an object. *)
Definition protoObjectResponse : ESQLSearchReponse :=
  {| columns := [geometryColumn; column "__proto__"];
     values := [ [VString "POINT (1 2)"; VObject [("polluted", VBoolean true)]] ] |}.

(** ** Properties of the building blocks *)

Lemma bind_Normal_inv {A B} (c : Completion A) (k : A → Completion B) b :
  bind c k = Normal b → ∃ a, c = Normal a ∧ k a = Normal b.
Proof. destruct c as [a|e]; simpl; [eauto | discriminate]. Qed.

Lemma forEach_app {S} (body : nat → S → Completion S) js1 js2 s :
  forEach body (js1 ++ js2) s = bind (forEach body js1 s) (forEach body js2).
Proof.
  revert s. induction js1 as [|j js1 IH]; intros s; simpl; [done|].
  destruct (body j s) as [s'|e]; simpl; [apply IH | done].
Qed.

Lemma forEach_snoc {S} (body : nat → S → Completion S) js j s :
  forEach body (js ++ [j]) s = bind (forEach body js s) (body j).
Proof.
  rewrite forEach_app. destruct (forEach body js s) as [s'|e]; simpl; [|done].
  by destruct (body j s').
Qed.

Lemma own_setProperty o key v k :
  own (setProperty o key v) !! k
  = if decide (key = k ∧ (key ≠ "__proto__" ∨ inheritsProtoAccessor (proto o) = false))
    then Some v else own o !! k.
Proof.
  unfold setProperty.
  destruct (bool_decide (key = "__proto__") && inheritsProtoAccessor (proto o)) eqn:Hacc.
  - apply andb_true_iff in Hacc as [Hk%bool_decide_eq_true Hinh].
    rewrite decide_False; [by destruct v|]. intros [_ [?| ?]]; congruence.
  - simpl. destruct (decide (key = k ∧ _)) as [[-> _]|Hd].
    + apply lookup_insert_eq.
    + apply lookup_insert_ne. intros ->. apply Hd. split; [done|].
      apply andb_false_iff in Hacc as [Hk%bool_decide_eq_false|Hinh]; auto.
Qed.

Lemma at_index_ge (xs : list Value) i : length xs ≤ i → at_index xs i = VUndefined.
Proof. unfold at_index. intros H. by rewrite lookup_ge_None_2. Qed.

Lemma filter_ext_elem {A} (P Q : A → Prop)
    `{!∀ x, Decision (P x), !∀ x, Decision (Q x)} (l : list A) :
  (∀ x, x ∈ l → P x ↔ Q x) → filter P l = filter Q l.
Proof.
  induction l as [|x l IH]; intros Hext; [done|].
  rewrite !filter_cons. rewrite IH by (intros y Hy; apply Hext; by right).
  destruct (decide (P x)) as [HP|HP], (decide (Q x)) as [HQ|HQ]; try done.
  - destruct HQ. apply Hext; [by left | done].
  - destruct HP. apply Hext; [by left | done].
Qed.

Section ConverterProperties.

Variable parse : Value → Completion Value.
Variable isGeometryColumnName : string → bool.

Local Abbreviation locate := (getGeometryColumnIndex isGeometryColumnName).
Local Abbreviation candidates := (geometryCandidates isGeometryColumnName).

(** The columns the naming convention recognises. *)
Local Abbreviation recognised := (filter (λ c : ESQLColumn, isGeometryColumnName (name c) = true)).

(** *** The geometry-column locator *)

Lemma elem_of_candidates cols j :
  j ∈ candidates cols ↔ ∃ c, cols !! j = Some c ∧ isGeometryColumnName (name c) = true.
Proof.
  unfold geometryCandidates. rewrite list_elem_of_filter, bool_decide_spec, elem_of_seq.
  split.
  - intros [Hrec _]. destruct (cols !! j) as [c|]; simpl in Hrec; [|done].
    exists c. split; [done | congruence].
  - intros (c & Hc & Hrec). rewrite Hc. simpl. rewrite Hrec. split; [done|].
    apply lookup_lt_Some in Hc. lia.
Qed.

Lemma candidates_snoc cols c :
  candidates (cols ++ [c])
  = candidates cols ++ (if isGeometryColumnName (name c) then [length cols] else []).
Proof.
  unfold geometryCandidates. rewrite length_app. simpl.
  rewrite Nat.add_1_r, seq_S, filter_app. simpl. f_equal.
  - apply filter_ext_elem. intros j Hj. apply elem_of_seq in Hj.
    rewrite lookup_app_l by lia. done.
  - rewrite filter_cons, filter_nil. rewrite list_lookup_middle by done. simpl.
    destruct (isGeometryColumnName (name c)); by case_decide.
Qed.

Lemma length_candidates cols :
  length (candidates cols) = length (recognised cols).
Proof.
  induction cols as [|c cols IH] using rev_ind; [done|].
  rewrite candidates_snoc, filter_app, !length_app, IH. f_equal.
  rewrite filter_cons, filter_nil.
  destruct (isGeometryColumnName (name c)); by case_decide.
Qed.

Lemma locate_Normal cols gi :
  locate cols = Normal gi ↔ candidates cols = [gi].
Proof.
  unfold getGeometryColumnIndex.
  destruct (candidates cols) as [|i [|i' rest]]; split; intros H;
    try discriminate; congruence.
Qed.

Lemma locate_Throw cols e :
  locate cols = Throw e → e = ColumnResolutionError ∧ length (candidates cols) ≠ 1.
Proof.
  unfold getGeometryColumnIndex.
  destruct (candidates cols) as [|i [|i' rest]]; intros H; try discriminate;
    (split; [congruence | simpl; lia]).
Qed.

(** A located index designates a recognised column, and no other column
    bears a recognised name. *)
Lemma locate_unique cols gi :
  locate cols = Normal gi →
  (∃ c, cols !! gi = Some c ∧ isGeometryColumnName (name c) = true)
  ∧ ∀ j c, cols !! j = Some c → isGeometryColumnName (name c) = true → j = gi.
Proof.
  rewrite locate_Normal. intros Hc. split.
  - apply elem_of_candidates. rewrite Hc. by left.
  - intros j c Hj Hrec.
    assert (j ∈ candidates cols) as Hin by (apply elem_of_candidates; eauto).
    rewrite Hc in Hin. by apply list_elem_of_singleton in Hin.
Qed.

Lemma locate_lt cols gi : locate cols = Normal gi → gi < length cols.
Proof.
  intros H. apply locate_unique in H as [(c & Hc & _) _].
  by apply lookup_lt_Some in Hc.
Qed.

(** *** The properties loop *)

Lemma propertiesStep_Normal gi cols hit j props props' :
  propertiesStep gi cols hit j props = Normal props' →
  (j = gi ∧ props' = props)
  ∨ (j ≠ gi ∧ ∃ c, cols !! j = Some c
              ∧ props' = setProperty props (name c) (at_index hit j)).
Proof.
  unfold propertiesStep. case_decide as Hj; [intros [= <-]; by left|].
  destruct (cols !! j) as [c|]; [|discriminate].
  intros [= <-]. right. eauto.
Qed.

Lemma prefix_S gi cols hit k s :
  forEach (propertiesStep gi cols hit) (seq 0 (S k)) s
  = bind (forEach (propertiesStep gi cols hit) (seq 0 k) s) (propertiesStep gi cols hit k).
Proof. by rewrite seq_S, forEach_snoc. Qed.

(** The loop over the first [k] indices returns exactly when every index
    it visits, the geometry index apart, has a column descriptor. *)
Lemma prefix_Normal_iff gi cols hit k s :
  (∃ p, forEach (propertiesStep gi cols hit) (seq 0 k) s = Normal p)
  ↔ ∀ j, j < k → j ≠ gi → j < length cols.
Proof.
  induction k as [|k IH]; [split; [lia | by eexists]|].
  rewrite prefix_S. split.
  - intros [p Hp]. apply bind_Normal_inv in Hp as (p' & Hp' & Hstep).
    intros j Hj Hne. destruct (decide (j = k)) as [->|Hjk].
    + apply propertiesStep_Normal in Hstep as [[? _]|(_ & c & Hc & _)]; [done|].
      by apply lookup_lt_Some in Hc.
    + apply IH; [eauto | lia | done].
  - intros Hall. destruct IH as [_ IH].
    destruct IH as [p' Hp']; [intros j ? ?; apply Hall; [lia | done]|].
    rewrite Hp'. simpl. unfold propertiesStep. case_decide as Hk; [by eexists|].
    destruct (lookup_lt_is_Some_2 cols k) as [c Hc]; [apply Hall; [lia | done]|].
    rewrite Hc. by eexists.
Qed.

(** The only exception the loop raises is the [TypeError] of reading
    [.name] of a column descriptor that does not exist. *)
Lemma prefix_Throw gi cols hit js s e :
  forEach (propertiesStep gi cols hit) js s = Throw e → e = TypeError.
Proof.
  revert s. induction js as [|j js IH]; intros s; simpl; [discriminate|].
  unfold propertiesStep at 1. case_decide; simpl; [apply IH|].
  destruct (cols !! j); simpl; [apply IH | congruence].
Qed.

(** Every own property was written from a cell other than the geometry
    cell, under the name of that cell's column. *)
Lemma prefix_provenance gi cols hit k p n v :
  forEach (propertiesStep gi cols hit) (seq 0 k) emptyObject = Normal p →
  own p !! n = Some v →
  ∃ j c, j < k ∧ j ≠ gi ∧ cols !! j = Some c ∧ name c = n ∧ at_index hit j = v.
Proof.
  revert p. induction k as [|k IH]; intros p.
  - intros [= <-]. simpl. by rewrite lookup_empty.
  - rewrite prefix_S. intros Hp Hn.
    apply bind_Normal_inv in Hp as (p' & Hp' & Hstep).
    apply propertiesStep_Normal in Hstep as [[_ ->]|(Hk & c & Hc & ->)].
    + destruct (IH _ Hp' Hn) as (j & c & ? & ?). exists j, c. split; [lia | done].
    + rewrite own_setProperty in Hn. case_decide as Hd.
      * destruct Hd as [<- _]. injection Hn as <-. exists k, c. eauto 10.
      * destruct (IH _ Hp' Hn) as (j & c' & ? & ?). exists j, c'. split; [lia | done].
Qed.

(** The value under a name is the cell of the last column, among those the
    loop visits, that bears the name. *)
Lemma prefix_last_writer gi cols hit k p j c :
  forEach (propertiesStep gi cols hit) (seq 0 k) emptyObject = Normal p →
  j < k → j ≠ gi → cols !! j = Some c → name c ≠ "__proto__" →
  (∀ j' c', j < j' < k → j' ≠ gi → cols !! j' = Some c' → name c' ≠ name c) →
  own p !! name c = Some (at_index hit j).
Proof.
  intros Hp Hjk Hj Hc Hproto. revert p Hp Hjk.
  induction k as [|k IH]; intros p Hp Hjk Hlater; [lia|].
  rewrite prefix_S in Hp. apply bind_Normal_inv in Hp as (p' & Hp' & Hstep).
  apply propertiesStep_Normal in Hstep as [[Hk ->]|(Hk & c' & Hc' & ->)].
  - apply IH; [done | lia |]. intros j' c' ? ? ?. apply (Hlater j'); [lia | done..].
  - rewrite own_setProperty. destruct (decide (j = k)) as [->|Hne].
    + assert (c' = c) as -> by congruence. rewrite decide_True; auto.
    + rewrite decide_False.
      * apply IH; [done | lia |]. intros j' c'' ? ? ?. apply (Hlater j'); [lia | done..].
      * intros [Heq _]. by apply (Hlater k c'); [lia | ..].
Qed.

(** A column the loop visits, the geometry column and the key
    [__proto__] apart, leaves an own property under its name. *)
Lemma prefix_has_entry gi cols hit k p j c :
  forEach (propertiesStep gi cols hit) (seq 0 k) emptyObject = Normal p →
  j < k → j ≠ gi → cols !! j = Some c → name c ≠ "__proto__" →
  is_Some (own p !! name c).
Proof.
  intros Hp Hjk Hj Hc Hproto. revert p Hp Hjk.
  induction k as [|k IH]; intros p Hp Hjk; [lia|].
  rewrite prefix_S in Hp. apply bind_Normal_inv in Hp as (p' & Hp' & Hstep).
  apply propertiesStep_Normal in Hstep as [[Hk ->]|(Hk & c' & Hc' & ->)].
  - apply IH; [done | lia].
  - rewrite own_setProperty. case_decide; [by eexists|].
    destruct (decide (j = k)) as [->|Hne]; [|apply IH; [done | lia]].
    assert (c' = c) as -> by congruence. naive_solver.
Qed.

Lemma buildProperties_Normal_iff gi cols hit :
  gi < length cols →
  (∃ p, buildProperties gi cols hit = Normal p) ↔ length hit ≤ length cols.
Proof.
  intros Hgi. unfold buildProperties. rewrite prefix_Normal_iff. split.
  - intros Hall. destruct (decide (length hit ≤ length cols)) as [|Hlong]; [done|].
    specialize (Hall (length cols)). lia.
  - intros Hle j ? _. lia.
Qed.

(** *** One row *)

Lemma processRow_falsy gi cols hit :
  truthy (at_index hit gi) = false → processRow parse gi cols hit = Skipped.
Proof. unfold processRow. by intros ->. Qed.

Lemma processRow_parse_Throw gi cols hit e :
  parse (at_index hit gi) = Throw e →
  processRow parse gi cols hit = Skipped ∨ processRow parse gi cols hit = Swallowed e.
Proof.
  intros He. unfold processRow, tryBlock. rewrite He. simpl.
  destruct (truthy (at_index hit gi)); simpl; auto.
Qed.

Lemma processRow_Pushed_inv gi cols hit f :
  processRow parse gi cols hit = Pushed f →
  truthy (at_index hit gi) = true
  ∧ parse (at_index hit gi) = Normal (geometry f)
  ∧ buildProperties gi cols hit = Normal (properties f).
Proof.
  unfold processRow, tryBlock.
  destruct (truthy (at_index hit gi)); simpl; [|discriminate].
  destruct (parse (at_index hit gi)) as [g|e]; simpl; [|discriminate].
  destruct (buildProperties gi cols hit) as [p|e]; simpl; [|discriminate].
  by intros [= <-].
Qed.

Lemma processRow_Pushed gi cols hit g p :
  truthy (at_index hit gi) = true →
  parse (at_index hit gi) = Normal g →
  buildProperties gi cols hit = Normal p →
  processRow parse gi cols hit = Pushed {| geometry := g; properties := p |}.
Proof.
  intros Ht Hg Hp. unfold processRow, tryBlock. by rewrite Ht, Hg, Hp.
Qed.

(** A row is pushed exactly when its geometry cell is truthy, the parser
    returns on it, and the row has no cell beyond the last column. *)
Lemma processRow_Pushed_iff gi cols hit :
  gi < length cols →
  (∃ f, processRow parse gi cols hit = Pushed f)
  ↔ truthy (at_index hit gi) = true
    ∧ (∃ g, parse (at_index hit gi) = Normal g)
    ∧ length hit ≤ length cols.
Proof.
  intros Hgi. split.
  - intros [f Hf]. apply processRow_Pushed_inv in Hf as (Ht & Hg & Hp).
    split_and!; [done | eauto |]. apply (buildProperties_Normal_iff gi); eauto.
  - intros (Ht & [g Hg] & Hlen).
    apply (buildProperties_Normal_iff gi cols hit Hgi) in Hlen as [p Hp].
    eexists. by apply processRow_Pushed.
Qed.

(** *** The row loop *)

Lemma collectFeatures_snoc gi cols rows hit :
  collectFeatures parse gi cols (rows ++ [hit])
  = rowStep parse gi cols (collectFeatures parse gi cols rows) hit.
Proof. unfold collectFeatures. by rewrite foldl_app. Qed.

Lemma foldl_rowStep gi cols acc rows :
  foldl (rowStep parse gi cols) acc rows = acc ++ collectFeatures parse gi cols rows.
Proof.
  induction rows as [|hit rows IH] using rev_ind.
  - simpl. by rewrite app_nil_r.
  - rewrite collectFeatures_snoc, foldl_app. simpl. rewrite IH.
    unfold rowStep. destruct (processRow parse gi cols hit); by rewrite ?app_assoc.
Qed.

Lemma collectFeatures_app gi cols rows1 rows2 :
  collectFeatures parse gi cols (rows1 ++ rows2)
  = collectFeatures parse gi cols rows1 ++ collectFeatures parse gi cols rows2.
Proof.
  unfold collectFeatures at 1. rewrite foldl_app. apply foldl_rowStep.
Qed.

Lemma collectFeatures_cons gi cols hit rows :
  collectFeatures parse gi cols (hit :: rows)
  = rowStep parse gi cols [] hit ++ collectFeatures parse gi cols rows.
Proof. apply (foldl_rowStep gi cols (rowStep parse gi cols [] hit) rows). Qed.

(** A row that does not reach [features.push] leaves no trace. *)
Lemma collectFeatures_drop gi cols before hit after :
  (∀ f, processRow parse gi cols hit ≠ Pushed f) →
  collectFeatures parse gi cols (before ++ hit :: after)
  = collectFeatures parse gi cols (before ++ after).
Proof.
  intros Hno. rewrite !collectFeatures_app, collectFeatures_cons.
  unfold rowStep. destruct (processRow parse gi cols hit) as [| |f]; try done.
  by destruct (Hno f).
Qed.

Lemma elem_of_collectFeatures gi cols rows f :
  f ∈ collectFeatures parse gi cols rows
  ↔ ∃ hit, hit ∈ rows ∧ processRow parse gi cols hit = Pushed f.
Proof.
  induction rows as [|hit rows IH] using rev_ind.
  - split; [by intros ?%elem_of_nil | by intros (? & ?%elem_of_nil & _)].
  - rewrite collectFeatures_snoc. unfold rowStep.
    destruct (processRow parse gi cols hit) as [| |f'] eqn:Hrow.
    + rewrite IH. split; intros (h & Hin & Hh).
      * exists h. split; [apply elem_of_app; by left | done].
      * apply elem_of_app in Hin as [Hin| ->%list_elem_of_singleton]; [eauto | congruence].
    + rewrite IH. split; intros (h & Hin & Hh).
      * exists h. split; [apply elem_of_app; by left | done].
      * apply elem_of_app in Hin as [Hin| ->%list_elem_of_singleton]; [eauto | congruence].
    + rewrite elem_of_app, IH, list_elem_of_singleton. split.
      * intros [(h & Hin & Hh)|Heq].
        -- exists h. split; [apply elem_of_app; by left | done].
        -- subst f'. exists hit. split; [apply elem_of_app; right; by left | done].
      * intros (h & Hin & Hh).
        apply elem_of_app in Hin as [Hin| ->%list_elem_of_singleton]; [eauto|].
        right. congruence.
Qed.

Lemma length_collectFeatures gi cols rows :
  length (collectFeatures parse gi cols rows) ≤ length rows.
Proof.
  induction rows as [|hit rows IH] using rev_ind; [done|].
  rewrite collectFeatures_snoc, length_app. unfold rowStep. simpl.
  destruct (processRow parse gi cols hit); rewrite ?length_app; simpl; lia.
Qed.

Lemma length_collectFeatures_eq gi cols rows :
  length (collectFeatures parse gi cols rows) = length rows
  ↔ Forall (λ hit, ∃ f, processRow parse gi cols hit = Pushed f) rows.
Proof.
  induction rows as [|hit rows IH] using rev_ind; [by split|].
  pose proof (length_collectFeatures gi cols rows) as Hle.
  rewrite collectFeatures_snoc, Forall_app, Forall_singleton, <- IH, !length_app.
  unfold rowStep. simpl.
  destruct (processRow parse gi cols hit) as [| |f] eqn:Hrow; rewrite ?length_app; simpl.
  - split; [lia | by intros [_ [? ?]]].
  - split; [lia | by intros [_ [? ?]]].
  - split; [intros; split; [lia | eauto] | intros [? _]; lia].
Qed.

Lemma convertToGeoJson_located resp gi :
  locate (columns resp) = Normal gi →
  convertToGeoJson parse isGeometryColumnName resp
  = Normal {| features := collectFeatures parse gi (columns resp) (values resp) |}.
Proof. unfold convertToGeoJson. by intros ->. Qed.

Lemma convertToGeoJson_features resp gi fc :
  locate (columns resp) = Normal gi →
  convertToGeoJson parse isGeometryColumnName resp = Normal fc →
  features fc = collectFeatures parse gi (columns resp) (values resp).
Proof. intros Hgi. rewrite (convertToGeoJson_located _ _ Hgi). by intros [= <-]. Qed.

(** The emitted features, paired with the positions of the rows they come
    from: the positions increase, and no pushing row is left out. *)
Lemma collectFeatures_sources gi cols rows :
  ∃ sources : list nat,
    StronglySorted lt sources
    ∧ Forall (λ i, i < length rows) sources
    ∧ Forall2 (λ f i, ∃ hit, rows !! i = Some hit ∧ processRow parse gi cols hit = Pushed f)
              (collectFeatures parse gi cols rows) sources
    ∧ ∀ i hit f, rows !! i = Some hit → processRow parse gi cols hit = Pushed f → i ∈ sources.
Proof.
  induction rows as [|hit rows IH] using rev_ind.
  - exists []. split_and!; [constructor.. |]. intros i hit f Hi. by rewrite lookup_nil in Hi.
  - destruct IH as (sources & Hsorted & Hbound & Hpairs & Hall).
    assert (Forall2 (λ f i, ∃ h, (rows ++ [hit]) !! i = Some h
                              ∧ processRow parse gi cols h = Pushed f)
              (collectFeatures parse gi cols rows) sources) as Hpairs'.
    { eapply Forall2_impl; [exact Hpairs|]. intros f i (h & Hh & Hf).
      exists h. split; [|done]. rewrite lookup_app_l; [done|]. by eapply lookup_lt_Some. }
    assert (Forall (λ i, i < length (rows ++ [hit])) sources) as Hbound'.
    { eapply Forall_impl; [exact Hbound|]. intros i Hi. rewrite length_app. simpl in *. lia. }
    rewrite collectFeatures_snoc. unfold rowStep.
    destruct (processRow parse gi cols hit) as [| |f] eqn:Hrow.
    + exists sources. split_and!; [done..|]. intros i h f Hi Hf.
      apply lookup_snoc_Some in Hi as [[? Hi]|[_ <-]]; [eauto | congruence].
    + exists sources. split_and!; [done..|]. intros i h f Hi Hf.
      apply lookup_snoc_Some in Hi as [[? Hi]|[_ <-]]; [eauto | congruence].
    + exists (sources ++ [length rows]). split_and!.
      * apply StronglySorted_app_2; [|done|repeat constructor].
        intros i1 i2 Hi1 ->%list_elem_of_singleton.
        by apply (proj1 (Forall_forall _ _) Hbound).
      * apply Forall_app. split; [done|]. apply Forall_singleton.
        rewrite length_app. simpl. lia.
      * apply Forall2_app; [done|]. constructor; [|constructor].
        exists hit. split; [|done]. by apply list_lookup_middle.
      * intros i h f' Hi Hf. apply elem_of_app.
        apply lookup_snoc_Some in Hi as [[? Hi]|[-> _]]; [left; eauto|].
        right. by left.
Qed.

(** ** The claims *)

(** C1, as amended (row-count invariant).  For every input, the converter
    never returns more features than the response has rows.  When no row is
    longer than the column list, the two lengths are equal exactly when
    every row has a truthy value in the geometry column on which the WKT
    parser returns. *)
Theorem row_count_invariant resp gi fc :
  locate (columns resp) = Normal gi →
  convertToGeoJson parse isGeometryColumnName resp = Normal fc →
  length (features fc) ≤ length (values resp)
  ∧ (Forall (λ hit : ESQLRow, length hit ≤ length (columns resp)) (values resp) →
     (length (features fc) = length (values resp)
      ↔ Forall (λ hit, truthy (at_index hit gi) = true
                       ∧ ∃ g, parse (at_index hit gi) = Normal g) (values resp))).
Proof.
  intros Hgi Hfc. rewrite (convertToGeoJson_features _ _ _ Hgi Hfc).
  split; [apply length_collectFeatures|]. intros Hwf.
  rewrite length_collectFeatures_eq.
  pose proof (locate_lt _ _ Hgi) as Hlt.
  rewrite !Forall_forall in *. split; intros Hall hit Hin.
  - apply Hall, processRow_Pushed_iff in Hin as (? & ? & ?); done.
  - apply processRow_Pushed_iff; [done|]. destruct (Hall hit Hin). auto.
Qed.

(** C2 (parse failures are swallowed).  Once the geometry column is located,
    a row on whose geometry cell the parser throws ends in the [continue] or
    in the [catch] block, the response converts to the features of the rows
    before it followed by those of the rows after it, and a response with no
    rows, or whose rows all fail to parse, converts to an empty feature
    list. *)
Theorem parse_failure_skips_row cols gi :
  locate cols = Normal gi →
  (∀ before hit after e,
     parse (at_index hit gi) = Throw e →
     (processRow parse gi cols hit = Skipped ∨ processRow parse gi cols hit = Swallowed e)
     ∧ convertToGeoJson parse isGeometryColumnName
         {| columns := cols; values := before ++ hit :: after |}
       = Normal {| features := collectFeatures parse gi cols before
                               ++ collectFeatures parse gi cols after |})
  ∧ convertToGeoJson parse isGeometryColumnName {| columns := cols; values := [] |}
    = Normal {| features := [] |}
  ∧ (∀ rows,
       Forall (λ hit, ∃ e, parse (at_index hit gi) = Throw e) rows →
       convertToGeoJson parse isGeometryColumnName {| columns := cols; values := rows |}
       = Normal {| features := [] |}).
Proof.
  intros Hgi. split_and!.
  - intros before hit after e He.
    pose proof (processRow_parse_Throw gi cols hit e He) as Hrow. split; [done|].
    rewrite (convertToGeoJson_located _ gi) by done. simpl.
    rewrite collectFeatures_drop, collectFeatures_app; [done|].
    intros f. destruct Hrow as [-> | ->]; discriminate.
  - by rewrite (convertToGeoJson_located _ gi).
  - intros rows Hall. rewrite (convertToGeoJson_located _ gi) by done. simpl. f_equal. f_equal.
    induction Hall as [|hit rows [e He] _ IH]; [done|].
    rewrite collectFeatures_cons, IH. unfold rowStep.
    by destruct (processRow_parse_Throw gi cols hit e He) as [-> | ->].
Qed.

(** C3 (column resolution error).  When the columns do not contain exactly
    one column recognised as the geometry column, the call throws the
    locator's column resolution error, whatever the rows and the parser are,
    so that no row is looked at and no feature collection is returned; and
    the call throws in no other situation and nothing else. *)
Theorem column_resolution_failure resp :
  (length (recognised (columns resp)) ≠ 1 →
   locate (columns resp) = Throw ColumnResolutionError
   ∧ convertToGeoJson parse isGeometryColumnName resp = Throw ColumnResolutionError)
  ∧ (∀ e, convertToGeoJson parse isGeometryColumnName resp = Throw e →
          e = ColumnResolutionError
          ∧ locate (columns resp) = Throw e
          ∧ length (recognised (columns resp)) ≠ 1).
Proof.
  rewrite <- length_candidates. unfold convertToGeoJson. split.
  - intros Hcount. unfold getGeometryColumnIndex.
    by destruct (candidates (columns resp)) as [|i [|i' rest]].
  - intros e. destruct (locate (columns resp)) as [gi|e'] eqn:Hloc; simpl; [discriminate|].
    intros [= ->]. by apply locate_Throw in Hloc as [-> ?].
Qed.

(** C4 (order preservation).  The features of the result can be matched
    with row positions that strictly increase along the feature list: each
    feature is the one its row pushed, and every row that pushes a feature
    takes part. *)
Theorem order_preservation resp gi fc :
  locate (columns resp) = Normal gi →
  convertToGeoJson parse isGeometryColumnName resp = Normal fc →
  ∃ sources : list nat,
    StronglySorted lt sources
    ∧ Forall2 (λ f i, ∃ hit, values resp !! i = Some hit
                             ∧ processRow parse gi (columns resp) hit = Pushed f)
              (features fc) sources
    ∧ ∀ i hit f, values resp !! i = Some hit →
                 processRow parse gi (columns resp) hit = Pushed f → i ∈ sources.
Proof.
  intros Hgi Hfc. rewrite (convertToGeoJson_features _ _ _ Hgi Hfc).
  destruct (collectFeatures_sources gi (columns resp) (values resp))
    as (sources & ? & _ & ? & ?).
  by exists sources.
Qed.

(** C5 (falsy geometry cells).  A row whose geometry cell is [null], the
    empty string, [undefined], a zero, or any other falsy value leaves the
    row loop at its [continue], before the [try] block and whatever the
    parser would do, and the call behaves as if the row were not there. *)
Theorem falsy_geometry_skips_row cols gi hit :
  locate cols = Normal gi →
  at_index hit gi = VNull ∨ at_index hit gi = VString "" ∨ at_index hit gi = VUndefined
  ∨ at_index hit gi = num 0 ∨ truthy (at_index hit gi) = false →
  processRow parse gi cols hit = Skipped
  ∧ ∀ before after,
      convertToGeoJson parse isGeometryColumnName
        {| columns := cols; values := before ++ hit :: after |}
      = Normal {| features := collectFeatures parse gi cols before
                              ++ collectFeatures parse gi cols after |}.
Proof.
  intros Hgi Hfalsy.
  assert (truthy (at_index hit gi) = false) as Ht
    by (destruct Hfalsy as [-> |[-> |[-> |[-> |?]]]]; done).
  clear Hfalsy.
  split; [by apply processRow_falsy|]. intros before after.
  rewrite (convertToGeoJson_located _ gi) by done. simpl.
  rewrite collectFeatures_drop, collectFeatures_app; [done|].
  by rewrite processRow_falsy.
Qed.

(** C6, as amended (property completeness).  When every row has as many
    cells as there are columns, each emitted feature comes from a row such
    that, for every column other than the geometry column whose name is not
    [__proto__], the properties have an entry under the column's name, and
    the entry holds the row's cell at that column unless a later
    non-geometry column bears the same name. *)
Theorem property_completeness resp gi fc f :
  locate (columns resp) = Normal gi →
  convertToGeoJson parse isGeometryColumnName resp = Normal fc →
  Forall (λ hit : ESQLRow, length hit = length (columns resp)) (values resp) →
  f ∈ features fc →
  ∃ hit, hit ∈ values resp
    ∧ processRow parse gi (columns resp) hit = Pushed f
    ∧ ∀ j c, columns resp !! j = Some c → j ≠ gi → name c ≠ "__proto__" →
        is_Some (own (properties f) !! name c)
        ∧ ((∀ j' c', j < j' → j' ≠ gi → columns resp !! j' = Some c' → name c' ≠ name c) →
           own (properties f) !! name c = Some (at_index hit j)).
Proof.
  intros Hgi Hfc Hwf Hf. rewrite (convertToGeoJson_features _ _ _ Hgi Hfc) in Hf.
  apply elem_of_collectFeatures in Hf as (hit & Hin & Hrow).
  exists hit. split_and!; [done..|]. intros j c Hc Hj Hproto.
  apply processRow_Pushed_inv in Hrow as (_ & _ & Hp).
  assert (j < length hit) as Hlt.
  { rewrite (proj1 (Forall_forall _ _) Hwf hit Hin). by eapply lookup_lt_Some. }
  split.
  - by eapply prefix_has_entry.
  - intros Hlast. eapply prefix_last_writer; [done..|].
    intros j' c' [? _]. by apply Hlast.
Qed.

(** Under a located geometry column, no emitted feature has a property
    under the geometry column's name. *)
Lemma geometry_name_absent cols gi c hit f :
  locate cols = Normal gi →
  cols !! gi = Some c →
  processRow parse gi cols hit = Pushed f →
  own (properties f) !! name c = None.
Proof.
  intros Hgi Hc Hrow. apply processRow_Pushed_inv in Hrow as (_ & _ & Hp).
  destruct (own (properties f) !! name c) as [v|] eqn:Hv; [exfalso|done].
  destruct (prefix_provenance _ _ _ _ _ _ _ Hp Hv) as (j & c' & _ & Hj & Hc' & Hname & _).
  apply locate_unique in Hgi as [(c0 & Hc0 & Hrec) Huniq].
  assert (c0 = c) as -> by congruence.
  apply Hj, (Huniq j c'); [done | by rewrite Hname].
Qed.

(** C7 (geometry exclusion).  For every emitted feature and every row that
    emits it, the properties do not hold the row's geometry cell under the
    geometry column's name. *)
Theorem geometry_exclusion resp gi fc f c :
  locate (columns resp) = Normal gi →
  convertToGeoJson parse isGeometryColumnName resp = Normal fc →
  f ∈ features fc →
  columns resp !! gi = Some c →
  ∀ hit, hit ∈ values resp →
         processRow parse gi (columns resp) hit = Pushed f →
         own (properties f) !! name c ≠ Some (at_index hit gi).
Proof.
  intros Hgi _ _ Hc hit _ Hrow.
  by rewrite (geometry_name_absent _ _ _ _ _ Hgi Hc Hrow).
Qed.

(** C8, as amended (duplicate column names).  When a name other than
    [__proto__] is borne by two non-geometry columns, each emitted feature
    comes from a row such that, if the row reaches the highest-index column
    of that name, the properties entry under the name is the row's cell at
    that column. *)
Theorem duplicate_names_last_wins resp gi fc f j1 j2 c1 c2 :
  locate (columns resp) = Normal gi →
  convertToGeoJson parse isGeometryColumnName resp = Normal fc →
  f ∈ features fc →
  columns resp !! j1 = Some c1 → columns resp !! j2 = Some c2 →
  j1 < j2 → j1 ≠ gi → j2 ≠ gi → name c1 = name c2 →
  (∀ j' c', j2 < j' → j' ≠ gi → columns resp !! j' = Some c' → name c' ≠ name c2) →
  name c2 ≠ "__proto__" →
  ∃ hit, hit ∈ values resp
    ∧ processRow parse gi (columns resp) hit = Pushed f
    ∧ (j2 < length hit → own (properties f) !! name c2 = Some (at_index hit j2)).
Proof.
  intros Hgi Hfc Hf _ Hc2 _ _ Hj2 _ Hlast Hproto.
  rewrite (convertToGeoJson_features _ _ _ Hgi Hfc) in Hf.
  apply elem_of_collectFeatures in Hf as (hit & Hin & Hrow).
  exists hit. split_and!; [done..|]. intros Hreach.
  apply processRow_Pushed_inv in Hrow as (_ & _ & Hp).
  eapply prefix_last_writer; [done..|].
  intros j' c' [? _]. by apply Hlast.
Qed.

(** C9, as amended (the parser's result is the geometry).  A row that is
    no longer than the column list, has a truthy geometry cell and on which
    the parser returns [g] pushes a feature whose geometry is [g], whatever
    [g] is, [null] included; the feature is part of the result. *)
Theorem parser_result_is_geometry resp gi fc hit g :
  locate (columns resp) = Normal gi →
  convertToGeoJson parse isGeometryColumnName resp = Normal fc →
  hit ∈ values resp →
  length hit ≤ length (columns resp) →
  truthy (at_index hit gi) = true →
  parse (at_index hit gi) = Normal g →
  ∃ f, processRow parse gi (columns resp) hit = Pushed f
       ∧ f ∈ features fc
       ∧ geometry f = g.
Proof.
  intros Hgi Hfc Hin Hlen Ht Hg.
  apply (buildProperties_Normal_iff gi _ hit (locate_lt _ _ Hgi)) in Hlen as [p Hp].
  pose proof (processRow_Pushed gi _ hit g p Ht Hg Hp) as Hrow.
  eexists. split_and!; [exact Hrow | | done].
  rewrite (convertToGeoJson_features _ _ _ Hgi Hfc).
  apply elem_of_collectFeatures. eauto.
Qed.

(** C10 (the properties loop is bounded by the row).  For a row no longer
    than the column list, every iteration of the properties loop finds its
    column descriptor and the loop returns; the properties it returns hold
    only cells of the row, under the names of the columns at their
    positions, so that a name borne by columns past the end of the row only
    has no entry; and a row with a truthy, parseable geometry cell pushes a
    feature with these properties. *)
Theorem row_bounded_properties_loop cols gi hit :
  length hit ≤ length cols →
  (∀ j props, j < length hit → ∃ props', propertiesStep gi cols hit j props = Normal props')
  ∧ ∃ props,
      buildProperties gi cols hit = Normal props
      ∧ (∀ n v, own props !! n = Some v →
                ∃ j c, j < length hit ∧ j ≠ gi ∧ cols !! j = Some c
                       ∧ name c = n ∧ at_index hit j = v)
      ∧ (∀ n, (∀ j c, j < length hit → j ≠ gi → cols !! j = Some c → name c ≠ n) →
              own props !! n = None)
      ∧ (∀ g, truthy (at_index hit gi) = true →
              parse (at_index hit gi) = Normal g →
              processRow parse gi cols hit = Pushed {| geometry := g; properties := props |}).
Proof.
  intros Hlen. split.
  - intros j props Hj. unfold propertiesStep. case_decide; [by eexists|].
    destruct (lookup_lt_is_Some_2 cols j) as [c ->]; [lia | by eexists].
  - destruct (proj2 (prefix_Normal_iff gi cols hit (length hit) emptyObject)) as [p Hp].
    { intros j ? _. lia. }
    exists p.
    assert (∀ n v, own p !! n = Some v →
              ∃ j c, j < length hit ∧ j ≠ gi ∧ cols !! j = Some c
                     ∧ name c = n ∧ at_index hit j = v) as Hprov.
    { intros n v Hv.
      destruct (prefix_provenance _ _ _ _ _ _ _ Hp Hv) as (j & c & ? & ? & ? & ? & ?).
      by exists j, c. }
    split_and!; [done | done | |].
    + intros n Hnone. destruct (own p !! n) as [v|] eqn:Hv; [exfalso|done].
      destruct (Hprov n v Hv) as (j & c & ? & ? & ? & ? & _). by eapply Hnone.
    + intros g Ht Hg. by apply processRow_Pushed.
Qed.

End ConverterProperties.

(** ** The claims on concrete responses *)

(** The example scenarios of the specification. *)
Example scenario_converts :
  convertToGeoJson sampleParse sampleIsGeometryColumnName scenarioResponse
  = Normal scenarioCollection.
Proof. reflexivity. Qed.

Example no_rows_convert_to_no_features :
  convertToGeoJson sampleParse sampleIsGeometryColumnName
    {| columns := columns scenarioResponse; values := [] |}
  = Normal {| features := [] |}.
Proof. reflexivity. Qed.

Example duplicate_names_convert :
  convertToGeoJson sampleParse sampleIsGeometryColumnName duplicateNameResponse
  = Normal {| features := [pointFeature {[ "id" := num 2 ]}] |}.
Proof. reflexivity. Qed.

Example no_geometry_column_throws :
  convertToGeoJson sampleParse sampleIsGeometryColumnName noGeometryResponse
  = Throw ColumnResolutionError.
Proof. reflexivity. Qed.

(** A cell under a column called [__proto__] is not stored: the assignment
    reaches the inherited accessor, which ignores a number. *)
Example proto_named_column_is_not_stored :
  convertToGeoJson sampleParse sampleIsGeometryColumnName protoNameResponse
  = Normal {| features := [pointFeature {[ "count" := num 5 ]}] |}.
Proof. reflexivity. Qed.

Lemma row_count_invariant_witness :
  getGeometryColumnIndex sampleIsGeometryColumnName (columns scenarioResponse) = Normal 0
  ∧ convertToGeoJson sampleParse sampleIsGeometryColumnName scenarioResponse
    = Normal scenarioCollection
  ∧ length (features scenarioCollection) ≤ length (values scenarioResponse)
  ∧ Forall (λ hit : ESQLRow, length hit ≤ length (columns scenarioResponse))
           (values scenarioResponse)
  ∧ (length (features scenarioCollection) = length (values scenarioResponse)
     ↔ Forall (λ hit, truthy (at_index hit 0) = true
                      ∧ ∃ g, sampleParse (at_index hit 0) = Normal g)
              (values scenarioResponse)).
Proof.
  assert (Forall (λ hit : ESQLRow, length hit ≤ length (columns scenarioResponse))
            (values scenarioResponse)) as Hwf by (repeat constructor).
  destruct (row_count_invariant sampleParse sampleIsGeometryColumnName
              scenarioResponse 0 scenarioCollection eq_refl eq_refl) as [Hle Hiff].
  split_and!; [reflexivity | reflexivity | exact Hle | exact Hwf | exact (Hiff Hwf)].
Defined.

(** C1 as stated fails on a row with a cell beyond the last column: its
    geometry cell is truthy and parses, yet the row yields no feature. *)
Lemma row_count_invariant_fails_on_long_row :
  ¬ (∀ gi fc,
       getGeometryColumnIndex sampleIsGeometryColumnName (columns longRowResponse)
       = Normal gi →
       convertToGeoJson sampleParse sampleIsGeometryColumnName longRowResponse = Normal fc →
       length (features fc) ≤ length (values longRowResponse)
       ∧ (length (features fc) = length (values longRowResponse)
          ↔ Forall (λ hit, truthy (at_index hit gi) = true
                           ∧ ∃ g, sampleParse (at_index hit gi) = Normal g)
                   (values longRowResponse))).
Proof.
  intros Hclaim.
  destruct (Hclaim 0 {| features := [] |} eq_refl eq_refl) as [_ [_ Hback]].
  assert (0 = 1) as Habsurd; [|discriminate Habsurd].
  apply Hback. repeat constructor. by exists pointOneTwo.
Qed.

Lemma parse_failure_skips_row_witness :
  getGeometryColumnIndex sampleIsGeometryColumnName (columns scenarioResponse) = Normal 0
  ∧ sampleParse (at_index [VString "NOT WKT"; num 3] 0) = Throw (ParseFault "invalid WKT")
  ∧ convertToGeoJson sampleParse sampleIsGeometryColumnName
      {| columns := columns scenarioResponse;
         values := [ [VString "POINT (1 2)"; num 5]; [VNull; num 9] ]
                   ++ [VString "NOT WKT"; num 3] :: [] |}
    = Normal {| features :=
                  collectFeatures sampleParse 0 (columns scenarioResponse)
                    [ [VString "POINT (1 2)"; num 5]; [VNull; num 9] ]
                  ++ collectFeatures sampleParse 0 (columns scenarioResponse) [] |}.
Proof.
  split_and!; [reflexivity | reflexivity |].
  apply (proj1 (parse_failure_skips_row sampleParse sampleIsGeometryColumnName
                  (columns scenarioResponse) 0 eq_refl)
           [ [VString "POINT (1 2)"; num 5]; [VNull; num 9] ]
           [VString "NOT WKT"; num 3] [] (ParseFault "invalid WKT") eq_refl).
Defined.

Lemma column_resolution_failure_witness :
  length (filter (λ c : ESQLColumn, sampleIsGeometryColumnName (name c) = true)
                 (columns noGeometryResponse)) ≠ 1
  ∧ convertToGeoJson sampleParse sampleIsGeometryColumnName noGeometryResponse
    = Throw ColumnResolutionError.
Proof.
  assert (length (filter (λ c : ESQLColumn, sampleIsGeometryColumnName (name c) = true)
                         (columns noGeometryResponse)) ≠ 1) as Hcount
    by (vm_compute; lia).
  split; [exact Hcount|].
  apply (proj1 (column_resolution_failure sampleParse sampleIsGeometryColumnName
                  noGeometryResponse) Hcount).
Defined.

Lemma order_preservation_witness :
  getGeometryColumnIndex sampleIsGeometryColumnName (columns twoRowResponse) = Normal 1
  ∧ convertToGeoJson sampleParse sampleIsGeometryColumnName twoRowResponse
    = Normal {| features := [pointFeature {[ "id" := num 1; "count" := num 5 ]};
                             pointFeature {[ "id" := num 2; "count" := num 6 ]}] |}
  ∧ ∃ sources : list nat,
      StronglySorted lt sources
      ∧ Forall2 (λ f i, ∃ hit, values twoRowResponse !! i = Some hit
                               ∧ processRow sampleParse 1 (columns twoRowResponse) hit
                                 = Pushed f)
                [pointFeature {[ "id" := num 1; "count" := num 5 ]};
                 pointFeature {[ "id" := num 2; "count" := num 6 ]}]
                sources
      ∧ ∀ i hit f, values twoRowResponse !! i = Some hit →
                   processRow sampleParse 1 (columns twoRowResponse) hit = Pushed f →
                   i ∈ sources.
Proof.
  assert (convertToGeoJson sampleParse sampleIsGeometryColumnName twoRowResponse
          = Normal {| features := [pointFeature {[ "id" := num 1; "count" := num 5 ]};
                                   pointFeature {[ "id" := num 2; "count" := num 6 ]}] |})
    as Hconverts by (vm_compute; reflexivity).
  split_and!; [reflexivity | exact Hconverts |].
  exact (order_preservation sampleParse sampleIsGeometryColumnName
           twoRowResponse 1 _ eq_refl Hconverts).
Defined.

Lemma falsy_geometry_skips_row_witness :
  getGeometryColumnIndex sampleIsGeometryColumnName (columns scenarioResponse) = Normal 0
  ∧ at_index [num 0; num 9] 0 = num 0
  ∧ processRow sampleParse 0 (columns scenarioResponse) [num 0; num 9] = Skipped
  ∧ ∀ before after,
      convertToGeoJson sampleParse sampleIsGeometryColumnName
        {| columns := columns scenarioResponse;
           values := before ++ [num 0; num 9] :: after |}
      = Normal {| features :=
                    collectFeatures sampleParse 0 (columns scenarioResponse) before
                    ++ collectFeatures sampleParse 0 (columns scenarioResponse) after |}.
Proof.
  split_and!; [reflexivity | reflexivity | |];
    apply (falsy_geometry_skips_row sampleParse sampleIsGeometryColumnName
             (columns scenarioResponse) 0 [num 0; num 9] eq_refl);
    right; right; right; left; reflexivity.
Defined.

Lemma property_completeness_witness :
  getGeometryColumnIndex sampleIsGeometryColumnName (columns scenarioResponse) = Normal 0
  ∧ Forall (λ hit : ESQLRow, length hit = length (columns scenarioResponse))
           (values scenarioResponse)
  ∧ pointFeature {[ "count" := num 5 ]} ∈ features scenarioCollection
  ∧ ∃ hit, hit ∈ values scenarioResponse
      ∧ processRow sampleParse 0 (columns scenarioResponse) hit
        = Pushed (pointFeature {[ "count" := num 5 ]})
      ∧ ∀ j c, columns scenarioResponse !! j = Some c → j ≠ 0 → name c ≠ "__proto__" →
          is_Some (own (properties (pointFeature {[ "count" := num 5 ]})) !! name c)
          ∧ ((∀ j' c', j < j' → j' ≠ 0 → columns scenarioResponse !! j' = Some c' →
                       name c' ≠ name c) →
             own (properties (pointFeature {[ "count" := num 5 ]})) !! name c
             = Some (at_index hit j)).
Proof.
  assert (Forall (λ hit : ESQLRow, length hit = length (columns scenarioResponse))
            (values scenarioResponse)) as Hwf by (repeat constructor).
  assert (pointFeature {[ "count" := num 5 ]} ∈ features scenarioCollection) as Hin
    by (by left).
  split_and!; [reflexivity | exact Hwf | exact Hin |].
  apply (property_completeness sampleParse sampleIsGeometryColumnName
           scenarioResponse 0 scenarioCollection _ eq_refl eq_refl Hwf Hin).
Defined.

(** C6 as stated fails when two non-geometry columns share a name: the
    entry under the name holds the later cell, not the earlier one. *)
Lemma property_completeness_fails_on_duplicate_names :
  ¬ (∀ gi fc f,
       getGeometryColumnIndex sampleIsGeometryColumnName (columns duplicateNameResponse)
       = Normal gi →
       convertToGeoJson sampleParse sampleIsGeometryColumnName duplicateNameResponse
       = Normal fc →
       Forall (λ hit : ESQLRow, length hit = length (columns duplicateNameResponse))
              (values duplicateNameResponse) →
       f ∈ features fc →
       ∃ hit, hit ∈ values duplicateNameResponse
         ∧ processRow sampleParse gi (columns duplicateNameResponse) hit = Pushed f
         ∧ ∀ j c, columns duplicateNameResponse !! j = Some c → j ≠ gi →
                  own (properties f) !! name c = Some (at_index hit j)).
Proof.
  intros Hclaim.
  destruct (Hclaim 0 {| features := [pointFeature {[ "id" := num 2 ]}] |}
              (pointFeature {[ "id" := num 2 ]}) eq_refl eq_refl)
    as (hit & Hin & _ & Hentries); [repeat constructor | by left |].
  apply list_elem_of_singleton in Hin as ->.
  specialize (Hentries 1 (column "id") eq_refl). vm_compute in Hentries.
  by specialize (Hentries ltac:(discriminate)).
Qed.

Lemma geometry_exclusion_witness :
  getGeometryColumnIndex sampleIsGeometryColumnName (columns scenarioResponse) = Normal 0
  ∧ pointFeature {[ "count" := num 5 ]} ∈ features scenarioCollection
  ∧ columns scenarioResponse !! 0 = Some geometryColumn
  ∧ ∀ hit, hit ∈ values scenarioResponse →
           processRow sampleParse 0 (columns scenarioResponse) hit
           = Pushed (pointFeature {[ "count" := num 5 ]}) →
           own (properties (pointFeature {[ "count" := num 5 ]})) !! name geometryColumn
           ≠ Some (at_index hit 0).
Proof.
  assert (pointFeature {[ "count" := num 5 ]} ∈ features scenarioCollection) as Hin
    by (by left).
  split_and!; [reflexivity | exact Hin | reflexivity |].
  apply (geometry_exclusion sampleParse sampleIsGeometryColumnName
           scenarioResponse 0 scenarioCollection _ geometryColumn
           eq_refl eq_refl Hin eq_refl).
Defined.

Lemma duplicate_names_last_wins_witness :
  getGeometryColumnIndex sampleIsGeometryColumnName (columns duplicateNameResponse)
  = Normal 0
  ∧ columns duplicateNameResponse !! 1 = Some (column "id")
  ∧ columns duplicateNameResponse !! 2 = Some (column "id")
  ∧ ∃ hit, hit ∈ values duplicateNameResponse
      ∧ processRow sampleParse 0 (columns duplicateNameResponse) hit
        = Pushed (pointFeature {[ "id" := num 2 ]})
      ∧ (2 < length hit →
         own (properties (pointFeature {[ "id" := num 2 ]})) !! name (column "id")
         = Some (at_index hit 2)).
Proof.
  split_and!; [reflexivity | reflexivity | reflexivity |].
  apply (duplicate_names_last_wins sampleParse sampleIsGeometryColumnName
           duplicateNameResponse 0 {| features := [pointFeature {[ "id" := num 2 ]}] |}
           (pointFeature {[ "id" := num 2 ]}) 1 2 (column "id") (column "id")
           eq_refl eq_refl);
    [by left | reflexivity | reflexivity | lia | lia | lia | reflexivity | | discriminate].
  intros j' c' Hlater _ Hc'.
  do 3 (destruct j' as [|j']; [lia|]). discriminate Hc'.
Defined.

(** C8 as stated fails on a row that stops before the later of two columns
    of the same name: the entry holds the earlier cell, while the row has
    nothing at the later column. *)
Lemma duplicate_names_last_wins_fails_on_short_row :
  ¬ (∀ gi fc f j1 j2 c1 c2,
       getGeometryColumnIndex sampleIsGeometryColumnName (columns shortRowResponse)
       = Normal gi →
       convertToGeoJson sampleParse sampleIsGeometryColumnName shortRowResponse
       = Normal fc →
       f ∈ features fc →
       columns shortRowResponse !! j1 = Some c1 →
       columns shortRowResponse !! j2 = Some c2 →
       j1 < j2 → j1 ≠ gi → j2 ≠ gi → name c1 = name c2 →
       (∀ j' c', j2 < j' → j' ≠ gi → columns shortRowResponse !! j' = Some c' →
                 name c' ≠ name c2) →
       ∃ hit, hit ∈ values shortRowResponse
         ∧ processRow sampleParse gi (columns shortRowResponse) hit = Pushed f
         ∧ own (properties f) !! name c2 = Some (at_index hit j2)).
Proof.
  intros Hclaim.
  destruct (Hclaim 0 {| features := [pointFeature {[ "id" := num 7 ]}] |}
              (pointFeature {[ "id" := num 7 ]}) 1 2 (column "id") (column "id")
              eq_refl eq_refl)
    as (hit & Hin & _ & Hentry);
    [by left | reflexivity | reflexivity | lia | lia | lia | reflexivity | |].
  - intros j' c' Hlater _ Hc'.
    do 3 (destruct j' as [|j']; [lia|]). discriminate Hc'.
  - apply list_elem_of_singleton in Hin as ->. vm_compute in Hentry. discriminate Hentry.
Qed.

Lemma parser_result_is_geometry_witness :
  getGeometryColumnIndex sampleIsGeometryColumnName (columns scenarioResponse) = Normal 0
  ∧ [VString "NOT WKT"; num 3] ∈ values scenarioResponse
  ∧ truthy (at_index [VString "NOT WKT"; num 3] 0) = true
  ∧ nullOnFailureParse (at_index [VString "NOT WKT"; num 3] 0) = Normal VNull
  ∧ ∃ f, processRow nullOnFailureParse 0 (columns scenarioResponse)
           [VString "NOT WKT"; num 3] = Pushed f
         ∧ f ∈ collectFeatures nullOnFailureParse 0 (columns scenarioResponse)
                 (values scenarioResponse)
         ∧ geometry f = VNull.
Proof.
  assert ([VString "NOT WKT"; num 3] ∈ values scenarioResponse) as Hin
    by (right; right; left).
  split_and!; [reflexivity | exact Hin | reflexivity | reflexivity |].
  apply (parser_result_is_geometry nullOnFailureParse sampleIsGeometryColumnName
           scenarioResponse 0
           {| features := collectFeatures nullOnFailureParse 0 (columns scenarioResponse)
                            (values scenarioResponse) |}
           [VString "NOT WKT"; num 3] VNull eq_refl eq_refl Hin);
    [simpl; lia | reflexivity | reflexivity].
Defined.

(** C9 as stated fails on a row with a cell beyond the last column: the
    geometry cell is truthy and the parser returns, yet reading the name of
    the missing column descriptor throws inside the [try] block and the row
    is dropped. *)
Lemma parser_result_is_geometry_fails_on_long_row :
  ¬ (∀ gi fc hit g,
       getGeometryColumnIndex sampleIsGeometryColumnName (columns longRowResponse)
       = Normal gi →
       convertToGeoJson sampleParse sampleIsGeometryColumnName longRowResponse = Normal fc →
       hit ∈ values longRowResponse →
       truthy (at_index hit gi) = true →
       sampleParse (at_index hit gi) = Normal g →
       ∃ f, processRow sampleParse gi (columns longRowResponse) hit = Pushed f
            ∧ f ∈ features fc
            ∧ geometry f = g).
Proof.
  intros Hclaim.
  destruct (Hclaim 0 {| features := [] |} [VString "POINT (1 2)"; num 5] pointOneTwo
              eq_refl eq_refl) as (f & Hrow & _); [by left | reflexivity | reflexivity |].
  vm_compute in Hrow. discriminate Hrow.
Qed.

Lemma row_bounded_properties_loop_witness :
  length [VString "POINT (1 2)"; num 7] ≤ length (columns shortRowResponse)
  ∧ ∃ props,
      buildProperties 0 (columns shortRowResponse) [VString "POINT (1 2)"; num 7]
      = Normal props
      ∧ (∀ n, (∀ j c, j < 2 → j ≠ 0 → columns shortRowResponse !! j = Some c → name c ≠ n) →
              own props !! n = None)
      ∧ (∀ g, truthy (at_index [VString "POINT (1 2)"; num 7] 0) = true →
              sampleParse (at_index [VString "POINT (1 2)"; num 7] 0) = Normal g →
              processRow sampleParse 0 (columns shortRowResponse)
                [VString "POINT (1 2)"; num 7]
              = Pushed {| geometry := g; properties := props |}).
Proof.
  assert (length [VString "POINT (1 2)"; num 7] ≤ length (columns shortRowResponse))
    as Hlen by (simpl; lia).
  split; [exact Hlen|].
  destruct (proj2 (row_bounded_properties_loop sampleParse (columns shortRowResponse) 0
                     [VString "POINT (1 2)"; num 7] Hlen))
    as (props & Hprops & _ & Homit & Hpush).
  exists props. split_and!; [exact Hprops | exact Homit | exact Hpush].
Defined.

(** ** Further properties of the converter *)

Lemma own_setProperty_insert o key v :
  key ≠ "__proto__" → own (setProperty o key v) = <[key := v]> (own o).
Proof.
  intros Hkey. unfold setProperty. by rewrite bool_decide_eq_false_2.
Qed.

Lemma proto_setProperty o key v :
  proto (setProperty o key v) = proto o
  ∨ (key = "__proto__" ∧ proto (setProperty o key v) = PrototypeValue v).
Proof.
  unfold setProperty.
  destruct (bool_decide (key = "__proto__") && inheritsProtoAccessor (proto o)) eqn:Hacc;
    [|by left].
  apply andb_true_iff in Hacc as [Hkey%bool_decide_eq_true _].
  destruct v; auto.
Qed.

Section ConverterFurtherProperties.

Variable parse : Value → Completion Value.
Variable isGeometryColumnName : string → bool.

Local Abbreviation locate := (getGeometryColumnIndex isGeometryColumnName).

(** The prototype link of the properties is [Object.prototype] or a cell
    the loop visited under a column called [__proto__]. *)
Lemma prefix_proto gi cols hit k p :
  forEach (propertiesStep gi cols hit) (seq 0 k) emptyObject = Normal p →
  proto p = ObjectPrototype
  ∨ ∃ j c, j < k ∧ j ≠ gi ∧ cols !! j = Some c ∧ name c = "__proto__"
           ∧ proto p = PrototypeValue (at_index hit j).
Proof.
  revert p. induction k as [|k IH]; intros p.
  - intros [= <-]. by left.
  - rewrite prefix_S. intros Hp.
    apply bind_Normal_inv in Hp as (p' & Hp' & Hstep).
    assert (proto p' = ObjectPrototype
            ∨ ∃ j c, j < S k ∧ j ≠ gi ∧ cols !! j = Some c ∧ name c = "__proto__"
                     ∧ proto p' = PrototypeValue (at_index hit j)) as Hprev.
    { destruct (IH _ Hp') as [?|(j & c & ? & ?)]; [by left|].
      right. exists j, c. split; [lia | done]. }
    apply propertiesStep_Normal in Hstep as [[_ ->]|(Hk & c & Hc & ->)]; [done|].
    destruct (proto_setProperty p' (name c) (at_index hit k)) as [-> |[Hname ->]];
      [done|].
    right. exists k, c. split_and!; [lia | done..].
Qed.

(** With distinct column names, none of them [__proto__], the loop adds one
    own property for every index it visits, the geometry index apart. *)
Lemma prefix_size gi cols hit k p :
  NoDup (name <$> cols) →
  "__proto__" ∉ (name <$> cols) →
  forEach (propertiesStep gi cols hit) (seq 0 k) emptyObject = Normal p →
  size (own p) = k - (if decide (gi < k) then 1 else 0).
Proof.
  intros Hdistinct Hproto. revert p. induction k as [|k IH]; intros p.
  - intros [= <-]. simpl. by rewrite map_size_empty.
  - rewrite prefix_S. intros Hp.
    apply bind_Normal_inv in Hp as (p' & Hp' & Hstep).
    specialize (IH _ Hp').
    apply propertiesStep_Normal in Hstep as [[-> ->]|(Hk & c & Hc & ->)].
    + rewrite IH. repeat case_decide; lia.
    + assert (name c ≠ "__proto__") as Hname.
      { intros Heq. apply Hproto. rewrite <- Heq.
        apply list_elem_of_fmap. exists c. split; [done|].
        by eapply list_elem_of_lookup_2. }
      rewrite own_setProperty_insert by done.
      rewrite map_size_insert_None, IH; [repeat case_decide; lia|].
      destruct (own p' !! name c) as [v|] eqn:Hv; [exfalso|done].
      destruct (prefix_provenance _ _ _ _ _ _ _ Hp' Hv) as (j & c' & Hj & _ & Hc' & Heq & _).
      assert (j = k); [|lia].
      apply (NoDup_lookup _ _ _ (name c) Hdistinct); rewrite list_lookup_fmap.
      * rewrite Hc'. simpl. by rewrite Heq.
      * by rewrite Hc.
Qed.

(** X1 (rows longer than the column list).  Once the geometry column is
    located, a row with more cells than there are columns never pushes a
    feature, whatever its geometry cell and the parser are, and the call
    returns the features of the rows around it. *)
Theorem long_row_is_dropped cols gi hit :
  locate cols = Normal gi →
  length cols < length hit →
  (∀ f, processRow parse gi cols hit ≠ Pushed f)
  ∧ ∀ before after,
      convertToGeoJson parse isGeometryColumnName {| columns := cols; values := before ++ hit :: after |}
      = Normal {| features := collectFeatures parse gi cols before
                              ++ collectFeatures parse gi cols after |}.
Proof.
  intros Hgi Hlong.
  assert (∀ f, processRow parse gi cols hit ≠ Pushed f) as Hno.
  { intros f Hf.
    assert (∃ f', processRow parse gi cols hit = Pushed f') as Hex by eauto.
    apply processRow_Pushed_iff in Hex as (_ & _ & ?); [lia|].
    by eapply locate_lt. }
  split; [done|]. intros before after.
  rewrite (convertToGeoJson_located _ _ _ gi) by done. simpl.
  by rewrite collectFeatures_drop, collectFeatures_app.
Qed.

(** X2 (what the catch block swallows).  Once the geometry column is
    located, a row ends in the catch block with exception [e] exactly when
    its geometry cell is truthy and either the parser throws [e] on it, or
    the parser returns, the row has more cells than there are columns and
    [e] is the [TypeError] of reading the name of a missing column. *)
Theorem swallowed_exceptions cols gi hit e :
  locate cols = Normal gi →
  processRow parse gi cols hit = Swallowed e
  ↔ truthy (at_index hit gi) = true
    ∧ (parse (at_index hit gi) = Throw e
       ∨ ((∃ g, parse (at_index hit gi) = Normal g)
          ∧ length cols < length hit ∧ e = TypeError)).
Proof.
  intros Hgi. pose proof (locate_lt _ _ _ Hgi) as Hlt.
  pose proof (buildProperties_Normal_iff gi cols hit Hlt) as Hbuild.
  unfold processRow, tryBlock.
  destruct (truthy (at_index hit gi)); simpl; [|split; [discriminate | by intros [? _]]].
  destruct (parse (at_index hit gi)) as [g|e']; simpl.
  - destruct (buildProperties gi cols hit) as [p|e'] eqn:Hp; simpl.
    + split; [discriminate|]. intros [_ [?|(_ & Hlong & _)]]; [discriminate|].
      assert (length hit ≤ length cols) by (apply Hbuild; eauto). lia.
    + pose proof (prefix_Throw _ _ _ _ _ _ Hp) as ->. split.
      * intros [= <-]. split; [done|]. right. split_and!; [eauto | | done].
        destruct (decide (length cols < length hit)) as [|Hshort]; [done|].
        destruct (proj2 Hbuild) as [p' Hp']; [lia | congruence].
      * intros [_ [?|(_ & _ & ->)]]; [discriminate | done].
  - split.
    + intros [= <-]. auto.
    + intros [_ [[= <-]|([g ?] & _)]]; [done | discriminate].
Qed.

(** X3 (where a feature's geometry comes from).  Every feature of the
    result comes from a row that has a cell at the geometry index, the cell
    is truthy, and the feature's geometry is what the parser returned on
    it. *)
Theorem feature_geometry_from_parser resp gi fc f :
  locate (columns resp) = Normal gi →
  convertToGeoJson parse isGeometryColumnName resp = Normal fc →
  f ∈ features fc →
  ∃ hit wkt, hit ∈ values resp
    ∧ hit !! gi = Some wkt
    ∧ truthy wkt = true
    ∧ parse wkt = Normal (geometry f)
    ∧ length hit ≤ length (columns resp).
Proof.
  intros Hgi Hfc Hf. rewrite (convertToGeoJson_features _ _ _ _ _ Hgi Hfc) in Hf.
  apply elem_of_collectFeatures in Hf as (hit & Hin & Hrow).
  assert (length hit ≤ length (columns resp)) as Hlen.
  { eapply processRow_Pushed_iff; [by eapply locate_lt | eauto]. }
  apply processRow_Pushed_inv in Hrow as (Ht & Hg & _).
  unfold at_index in Ht, Hg. destruct ((hit : list Value) !! gi) as [wkt|] eqn:Hwkt; [|discriminate Ht].
  by exists hit, wkt.
Qed.

(** X4 (no invented properties).  Every own property of every feature of
    the result is a cell of the feature's row, other than the geometry
    cell, stored under the name of the column at the cell's position. *)
Theorem properties_only_from_row resp gi fc f :
  locate (columns resp) = Normal gi →
  convertToGeoJson parse isGeometryColumnName resp = Normal fc →
  f ∈ features fc →
  ∃ hit, hit ∈ values resp
    ∧ processRow parse gi (columns resp) hit = Pushed f
    ∧ ∀ n v, own (properties f) !! n = Some v →
        ∃ j c, j ≠ gi ∧ columns resp !! j = Some c ∧ name c = n ∧ hit !! j = Some v.
Proof.
  intros Hgi Hfc Hf. rewrite (convertToGeoJson_features _ _ _ _ _ Hgi Hfc) in Hf.
  apply elem_of_collectFeatures in Hf as (hit & Hin & Hrow).
  exists hit. split_and!; [done..|]. intros n v Hv.
  apply processRow_Pushed_inv in Hrow as (_ & _ & Hp).
  destruct (prefix_provenance _ _ _ _ _ _ _ Hp Hv) as (j & c & Hj & ? & ? & ? & Hcell).
  exists j, c. split_and!; [done..|].
  unfold at_index in Hcell. destruct (lookup_lt_is_Some_2 hit j Hj) as [w Hw].
  rewrite Hw in Hcell. simpl in Hcell. subst. exact Hw.
Qed.

(** X5 (conversion distributes over row concatenation).  If two responses
    with the same columns convert, the response holding the rows of the
    first followed by the rows of the second converts to the features of
    the first followed by the features of the second. *)
Theorem convert_rows_app cols rows1 rows2 fc1 fc2 :
  convertToGeoJson parse isGeometryColumnName {| columns := cols; values := rows1 |} = Normal fc1 →
  convertToGeoJson parse isGeometryColumnName {| columns := cols; values := rows2 |} = Normal fc2 →
  convertToGeoJson parse isGeometryColumnName {| columns := cols; values := rows1 ++ rows2 |}
  = Normal {| features := features fc1 ++ features fc2 |}.
Proof.
  unfold convertToGeoJson. simpl.
  destruct (locate cols) as [gi|e]; simpl; [|discriminate].
  intros [= <-] [= <-]. simpl. by rewrite collectFeatures_app.
Qed.

(** What the [__proto__] accessor leaves as prototype, seen on the whole
    assignment: the link is kept, or the key is [__proto__] and the link
    becomes the assigned value, which is [null], an array or an object. *)
Lemma proto_setProperty_kind o key v :
  proto (setProperty o key v) = proto o
  ∨ (key = "__proto__"
     ∧ (v = VNull ∨ (∃ items, v = VArray items) ∨ (∃ fields, v = VObject fields))
     ∧ proto (setProperty o key v) = PrototypeValue v).
Proof.
  unfold setProperty.
  destruct (bool_decide (key = "__proto__") && inheritsProtoAccessor (proto o)) eqn:Hacc;
    [|by left].
  apply andb_true_iff in Hacc as [Hkey%bool_decide_eq_true _].
  destruct v; eauto 10.
Qed.

Lemma proto_setProperty_other o key v :
  key ≠ "__proto__" → proto (setProperty o key v) = proto o.
Proof.
  intros Hkey. unfold setProperty. by rewrite bool_decide_eq_false_2.
Qed.

Lemma prefix_proto_kind gi cols hit k p :
  forEach (propertiesStep gi cols hit) (seq 0 k) emptyObject = Normal p →
  proto p = ObjectPrototype
  ∨ ∃ j c, j < k ∧ j ≠ gi ∧ cols !! j = Some c ∧ name c = "__proto__"
           ∧ (at_index hit j = VNull ∨ (∃ items, at_index hit j = VArray items)
              ∨ (∃ fields, at_index hit j = VObject fields))
           ∧ proto p = PrototypeValue (at_index hit j).
Proof.
  revert p. induction k as [|k IH]; intros p.
  - intros [= <-]. by left.
  - rewrite prefix_S. intros Hp.
    apply bind_Normal_inv in Hp as (p' & Hp' & Hstep).
    assert (proto p' = ObjectPrototype
            ∨ ∃ j c, j < S k ∧ j ≠ gi ∧ cols !! j = Some c ∧ name c = "__proto__"
                     ∧ (at_index hit j = VNull ∨ (∃ items, at_index hit j = VArray items)
                        ∨ (∃ fields, at_index hit j = VObject fields))
                     ∧ proto p' = PrototypeValue (at_index hit j)) as Hprev.
    { destruct (IH _ Hp') as [?|(j & c & ? & ?)]; [by left|].
      right. exists j, c. split; [lia | done]. }
    apply propertiesStep_Normal in Hstep as [[_ ->]|(Hk & c & Hc & ->)]; [done|].
    destruct (proto_setProperty_kind p' (name c) (at_index hit k))
      as [-> |(Hname & Hkind & ->)]; [done|].
    right. exists k, c. split_and!; [lia | done..].
Qed.

(** With at most one non-geometry column called [__proto__], the prototype
    link is [Object.prototype] until the loop reaches that column, and
    afterwards what the accessor made of the column's cell. *)
Lemma prefix_proto_single gi cols hit k p j c :
  (∀ j1 j2 c1 c2, cols !! j1 = Some c1 → cols !! j2 = Some c2 →
                  j1 ≠ gi → j2 ≠ gi →
                  name c1 = "__proto__" → name c2 = "__proto__" → j1 = j2) →
  cols !! j = Some c → name c = "__proto__" → j ≠ gi →
  forEach (propertiesStep gi cols hit) (seq 0 k) emptyObject = Normal p →
  proto p = if decide (j < k)
            then match at_index hit j with
                 | VNull | VArray _ | VObject _ => PrototypeValue (at_index hit j)
                 | _ => ObjectPrototype
                 end
            else ObjectPrototype.
Proof.
  intros Hone Hc Hname Hj. revert p. induction k as [|k IH]; intros p.
  - intros [= <-]. by rewrite decide_False by lia.
  - rewrite prefix_S. intros Hp.
    apply bind_Normal_inv in Hp as (p' & Hp' & Hstep).
    specialize (IH _ Hp').
    apply propertiesStep_Normal in Hstep as [[-> ->]|(Hk & c' & Hc' & ->)].
    + rewrite IH. repeat case_decide; try done; lia.
    + destruct (decide (k = j)) as [->|Hne].
      * assert (c' = c) as -> by congruence.
        rewrite decide_False in IH by lia. rewrite decide_True by lia.
        unfold setProperty. rewrite Hname, IH. simpl.
        destruct (at_index hit j); done.
      * rewrite proto_setProperty_other, IH.
        -- repeat case_decide; try done; lia.
        -- intros Hname'. apply Hne. by apply (Hone k j c' c).
Qed.

(** X6 (the prototype link).  Every feature of the result comes from a row
    such that the prototype of the feature's properties object is
    [Object.prototype] or a cell of the row under a non-geometry column
    called [__proto__], such a cell being [null], an array or an object;
    and, when at most one non-geometry column is called [__proto__] and the
    row has a cell under it, the prototype is that cell if the cell is
    [null], an array or an object, and [Object.prototype] otherwise. *)
Theorem prototype_link_origin resp gi fc f :
  locate (columns resp) = Normal gi →
  convertToGeoJson parse isGeometryColumnName resp = Normal fc →
  f ∈ features fc →
  ∃ hit, hit ∈ values resp
    ∧ processRow parse gi (columns resp) hit = Pushed f
    ∧ (proto (properties f) = ObjectPrototype
       ∨ ∃ j c v, j ≠ gi ∧ columns resp !! j = Some c ∧ name c = "__proto__"
           ∧ hit !! j = Some v
           ∧ (v = VNull ∨ (∃ items, v = VArray items) ∨ (∃ fields, v = VObject fields))
           ∧ proto (properties f) = PrototypeValue v)
    ∧ ((∀ j1 j2 c1 c2, columns resp !! j1 = Some c1 → columns resp !! j2 = Some c2 →
                       j1 ≠ gi → j2 ≠ gi →
                       name c1 = "__proto__" → name c2 = "__proto__" → j1 = j2) →
       ∀ j c v, j ≠ gi → columns resp !! j = Some c → name c = "__proto__" →
                hit !! j = Some v →
                proto (properties f)
                = match v with
                  | VNull | VArray _ | VObject _ => PrototypeValue v
                  | _ => ObjectPrototype
                  end).
Proof.
  intros Hgi Hfc Hf. rewrite (convertToGeoJson_features _ _ _ _ _ Hgi Hfc) in Hf.
  apply elem_of_collectFeatures in Hf as (hit & Hin & Hrow).
  pose proof Hrow as (_ & _ & Hp)%processRow_Pushed_inv.
  exists hit. split_and!; [done | done | |].
  - destruct (prefix_proto_kind _ _ _ _ _ Hp)
      as [?|(j & c & Hj & ? & ? & ? & Hkind & Hv)]; [by left|].
    right. destruct (lookup_lt_is_Some_2 hit j Hj) as [w Hw].
    exists j, c, w. unfold at_index in Hkind, Hv. rewrite Hw in Hkind, Hv.
    split_and!; done.
  - intros Hone j c v Hj Hc Hname Hcell.
    rewrite (prefix_proto_single gi (columns resp) hit (length hit) _ j c
               Hone Hc Hname Hj Hp).
    rewrite decide_True by (by eapply lookup_lt_Some).
    unfold at_index.
    by rewrite (Hcell : (hit : list Value) !! j = Some v).
Qed.

(** X7 (distinctly named columns).  When the column names are pairwise
    distinct, none of them is [__proto__] and every row has as many cells
    as there are columns, the own properties of every feature of the result
    are exactly the cells of its row other than the geometry cell, each
    under the name of its column: one property per non-geometry column, and
    the prototype is [Object.prototype]. *)
Theorem distinct_names_exact_properties resp gi fc f :
  locate (columns resp) = Normal gi →
  convertToGeoJson parse isGeometryColumnName resp = Normal fc →
  NoDup (name <$> columns resp) →
  "__proto__" ∉ (name <$> columns resp) →
  Forall (λ hit : ESQLRow, length hit = length (columns resp)) (values resp) →
  f ∈ features fc →
  ∃ hit, hit ∈ values resp
    ∧ processRow parse gi (columns resp) hit = Pushed f
    ∧ (∀ n v, own (properties f) !! n = Some v
              ↔ ∃ j c, j ≠ gi ∧ columns resp !! j = Some c ∧ name c = n
                       ∧ hit !! j = Some v)
    ∧ size (own (properties f)) = length (columns resp) - 1
    ∧ proto (properties f) = ObjectPrototype.
Proof.
  intros Hgi Hfc Hdistinct Hproto Hwf Hf.
  rewrite (convertToGeoJson_features _ _ _ _ _ Hgi Hfc) in Hf.
  apply elem_of_collectFeatures in Hf as (hit & Hin & Hrow).
  pose proof Hrow as (_ & _ & Hp)%processRow_Pushed_inv.
  pose proof (proj1 (Forall_forall _ _) Hwf hit Hin) as Hlen. simpl in Hlen.
  assert (∀ c, c ∈ columns resp → name c ≠ "__proto__") as Hnames.
  { intros c Hc Heq. apply Hproto. rewrite <- Heq. apply list_elem_of_fmap. eauto. }
  exists hit. split_and!; [done | done | | |].
  - intros n v. split.
    + intros Hv.
      destruct (prefix_provenance _ _ _ _ _ _ _ Hp Hv) as (j & c & Hj & ? & ? & ? & Hcell).
      exists j, c. split_and!; [done..|].
      unfold at_index in Hcell. destruct (lookup_lt_is_Some_2 hit j Hj) as [w Hw].
      rewrite Hw in Hcell. simpl in Hcell. subst. exact Hw.
    + intros (j & c & Hj & Hc & <- & Hcell).
      rewrite (prefix_last_writer gi (columns resp) hit (length hit) _ j c Hp).
      * unfold at_index. f_equal. by rewrite (Hcell : (hit : list Value) !! j = Some v).
      * by eapply lookup_lt_Some.
      * done.
      * done.
      * apply Hnames. by eapply list_elem_of_lookup_2.
      * intros j' c' [Hlater _] _ Hc' Heq.
        assert (j' = j); [|lia].
        apply (NoDup_lookup _ _ _ (name c) Hdistinct); rewrite list_lookup_fmap.
        -- rewrite Hc'. simpl. by rewrite Heq.
        -- by rewrite Hc.
  - rewrite (prefix_size gi (columns resp) hit (length hit) _ Hdistinct Hproto Hp), Hlen.
    rewrite decide_True; [done|]. by eapply locate_lt.
  - destruct (prefix_proto _ _ _ _ _ Hp) as [?|(j & c & _ & _ & Hc & Hname & _)]; [done|].
    destruct (Hnames c); [by eapply list_elem_of_lookup_2 | done].
Qed.

End ConverterFurtherProperties.

(** ** Properties of the risk summary helpers *)

Lemma getProperty_truthy score key :
  truthy score = true → ∃ v, getProperty score key = Normal v.
Proof. destruct score; simpl; try discriminate; eauto. Qed.

Lemma isUserRiskData_Normal score :
  isUserRiskData score
  = Normal (truthy score
            && match getProperty score "user" with
               | Normal user => isDefined user
               | Throw _ => false
               end).
Proof.
  unfold isUserRiskData. destruct (truthy score) eqn:Ht; [|done].
  by destruct (getProperty_truthy score "user" Ht) as [u ->].
Qed.

(** X8 (the helpers never throw).  On every value, [isUserRiskData] and
    [getEntityData] return; the entity data is [undefined] exactly when the
    risk data is falsy or has neither a [user] nor a [host] property. *)
Theorem getEntityData_never_throws score :
  (∃ b, isUserRiskData score = Normal b)
  ∧ ∃ entity, getEntityData score = Normal entity
      ∧ (entity = VUndefined
         ↔ truthy score = false
           ∨ (getProperty score "user" = Normal VUndefined
              ∧ getProperty score "host" = Normal VUndefined)).
Proof.
  split; [rewrite isUserRiskData_Normal; eauto|].
  unfold getEntityData. rewrite isUserRiskData_Normal.
  destruct (truthy score) eqn:Ht; simpl.
  - destruct (getProperty_truthy score "user" Ht) as [u Hu].
    destruct (getProperty_truthy score "host" Ht) as [h Hh].
    rewrite Hu, Hh. destruct u; simpl.
    1: { exists h. split; [done|]. split; [intros ->; auto | by intros [?|[_ [= <-]]]]. }
    all: eexists; split; [done|]; split; [discriminate|];
      intros [?|[? _]]; discriminate.
  - exists VUndefined. split; [done|]. split; auto.
Qed.

(** X9 (the user property wins).  When [isUserRiskData] holds, the risk
    data has a [user] property other than [undefined] and [getEntityData]
    returns it, whatever [host] is; when it does not hold on truthy risk
    data, [getEntityData] returns the [host] property. *)
Theorem entity_data_follows_guard score :
  (isUserRiskData score = Normal true →
   ∃ user, getProperty score "user" = Normal user
           ∧ user ≠ VUndefined
           ∧ getEntityData score = Normal user)
  ∧ (isUserRiskData score = Normal false →
     truthy score = true →
     getProperty score "user" = Normal VUndefined
     ∧ getEntityData score = getProperty score "host").
Proof.
  unfold getEntityData. rewrite isUserRiskData_Normal.
  destruct (truthy score) eqn:Ht; simpl; [|split; discriminate].
  destruct (getProperty_truthy score "user" Ht) as [u Hu]. rewrite Hu.
  split; intros [= Hdef].
  - exists u. rewrite Hdef. split_and!; [done | by intros -> | done].
  - intros _. rewrite Hdef. by destruct u.
Qed.

(** X10 (the entity name is never nullish).  For every risk data, reading
    the entity name off the entity data returns; the name is neither
    [undefined] nor [null]; it is the [name] property of the entity object
    when that is neither [undefined] nor [null], and the empty string
    otherwise, that is when the property is [undefined] or [null] or the
    entity data is not an object. *)
Theorem entity_name_is_never_nullish score :
  ∃ entity n,
    getEntityData score = Normal entity
    ∧ entityName entity = Normal n
    ∧ n ≠ VUndefined ∧ n ≠ VNull
    ∧ (∀ fields, entity = VObject fields →
         (lookupField fields "name" ≠ VUndefined →
          lookupField fields "name" ≠ VNull →
          n = lookupField fields "name")
         ∧ (lookupField fields "name" = VUndefined ∨ lookupField fields "name" = VNull →
            n = VString ""))
    ∧ ((∀ fields, entity ≠ VObject fields) → n = VString "").
Proof.
  destruct (getEntityData_never_throws score) as [_ (entity & -> & _)].
  exists entity. unfold entityName.
  destruct entity as [| | | | |items|fields]; simpl;
    try (exists (VString ""); split_and!; [done | done | done | done | done | done]).
  exists (nullishCoalesce (lookupField fields "name") (VString "")).
  split_and!; [done | done | | | |].
  - by destruct (lookupField fields "name").
  - by destruct (lookupField fields "name").
  - intros fields' [= <-]. split.
    + intros Hundef Hnull. by destruct (lookupField fields "name").
    + by intros [-> | ->].
  - intros Hnot. by destruct (Hnot fields).
Qed.

(** X11 (falsy risk data).  When the first element of [data] is missing or
    falsy, the panel has no user risk data, no entity data, an empty entity
    name and the field [host.name]. *)
Theorem falsy_risk_data_defaults_to_host data :
  truthy (riskData data) = false →
  isUserRiskData (riskData data) = Normal false
  ∧ getEntityData (riskData data) = Normal VUndefined
  ∧ entityName VUndefined = Normal (VString "")
  ∧ fieldName (riskData data) = Normal "host.name".
Proof.
  intros Ht. unfold fieldName, getEntityData. rewrite isUserRiskData_Normal, Ht. done.
Qed.

Lemma entity_data_follows_guard_witness :
  isUserRiskData userRiskScore = Normal true
  ∧ isUserRiskData hostRiskScore = Normal false
  ∧ truthy hostRiskScore = true
  ∧ getEntityData userRiskScore = Normal (VObject [("name", VString "alice")])
  ∧ getEntityData hostRiskScore = Normal (VObject [("name", VString "web-01")]).
Proof.
  split_and!; [reflexivity | reflexivity | reflexivity | |].
  - destruct (proj1 (entity_data_follows_guard userRiskScore) eq_refl)
      as (user & [= <-] & _ & Hentity).
    exact Hentity.
  - exact (proj2 (proj2 (entity_data_follows_guard hostRiskScore) eq_refl eq_refl)).
Defined.

Lemma falsy_risk_data_defaults_to_host_witness :
  truthy (riskData (Some [])) = false
  ∧ isUserRiskData (riskData (Some [])) = Normal false
  ∧ getEntityData (riskData (Some [])) = Normal VUndefined
  ∧ entityName VUndefined = Normal (VString "")
  ∧ fieldName (riskData (Some [])) = Normal "host.name".
Proof.
  split; [reflexivity|].
  apply (falsy_risk_data_defaults_to_host (Some []) eq_refl).
Defined.

(** ** The further properties on concrete inputs *)

Lemma long_row_is_dropped_witness :
  getGeometryColumnIndex sampleIsGeometryColumnName (columns longRowResponse) = Normal 0
  ∧ length (columns longRowResponse) < length [VString "POINT (1 2)"; num 5]
  ∧ (∀ f, processRow sampleParse 0 (columns longRowResponse) [VString "POINT (1 2)"; num 5]
          ≠ Pushed f)
  ∧ ∀ before after,
      convertToGeoJson sampleParse sampleIsGeometryColumnName
        {| columns := columns longRowResponse;
           values := before ++ [VString "POINT (1 2)"; num 5] :: after |}
      = Normal {| features :=
                    collectFeatures sampleParse 0 (columns longRowResponse) before
                    ++ collectFeatures sampleParse 0 (columns longRowResponse) after |}.
Proof.
  assert (length (columns longRowResponse) < length [VString "POINT (1 2)"; num 5])
    as Hlong by (simpl; lia).
  split_and!; [reflexivity | exact Hlong | |];
    apply (long_row_is_dropped sampleParse sampleIsGeometryColumnName
             (columns longRowResponse) 0 [VString "POINT (1 2)"; num 5] eq_refl Hlong).
Defined.

Lemma swallowed_exceptions_witness :
  getGeometryColumnIndex sampleIsGeometryColumnName (columns scenarioResponse) = Normal 0
  ∧ (processRow sampleParse 0 (columns scenarioResponse) [VString "NOT WKT"; num 3]
     = Swallowed (ParseFault "invalid WKT")
     ↔ truthy (at_index [VString "NOT WKT"; num 3] 0) = true
       ∧ (sampleParse (at_index [VString "NOT WKT"; num 3] 0)
          = Throw (ParseFault "invalid WKT")
          ∨ ((∃ g, sampleParse (at_index [VString "NOT WKT"; num 3] 0) = Normal g)
             ∧ length (columns scenarioResponse) < length [VString "NOT WKT"; num 3]
             ∧ ParseFault "invalid WKT" = TypeError))).
Proof.
  split; [reflexivity|].
  apply (swallowed_exceptions sampleParse sampleIsGeometryColumnName
           (columns scenarioResponse) 0 [VString "NOT WKT"; num 3]
           (ParseFault "invalid WKT") eq_refl).
Defined.

Lemma feature_geometry_from_parser_witness :
  getGeometryColumnIndex sampleIsGeometryColumnName (columns scenarioResponse) = Normal 0
  ∧ pointFeature {[ "count" := num 5 ]} ∈ features scenarioCollection
  ∧ ∃ hit wkt, hit ∈ values scenarioResponse
      ∧ hit !! 0 = Some wkt
      ∧ truthy wkt = true
      ∧ sampleParse wkt = Normal (geometry (pointFeature {[ "count" := num 5 ]}))
      ∧ length hit ≤ length (columns scenarioResponse).
Proof.
  assert (pointFeature {[ "count" := num 5 ]} ∈ features scenarioCollection) as Hin
    by (by left).
  split_and!; [reflexivity | exact Hin |].
  apply (feature_geometry_from_parser sampleParse sampleIsGeometryColumnName
           scenarioResponse 0 scenarioCollection _ eq_refl eq_refl Hin).
Defined.

Lemma properties_only_from_row_witness :
  getGeometryColumnIndex sampleIsGeometryColumnName (columns scenarioResponse) = Normal 0
  ∧ pointFeature {[ "count" := num 5 ]} ∈ features scenarioCollection
  ∧ ∃ hit, hit ∈ values scenarioResponse
      ∧ processRow sampleParse 0 (columns scenarioResponse) hit
        = Pushed (pointFeature {[ "count" := num 5 ]})
      ∧ ∀ n v, own (properties (pointFeature {[ "count" := num 5 ]})) !! n = Some v →
          ∃ j c, j ≠ 0 ∧ columns scenarioResponse !! j = Some c ∧ name c = n
                 ∧ hit !! j = Some v.
Proof.
  assert (pointFeature {[ "count" := num 5 ]} ∈ features scenarioCollection) as Hin
    by (by left).
  split_and!; [reflexivity | exact Hin |].
  apply (properties_only_from_row sampleParse sampleIsGeometryColumnName
           scenarioResponse 0 scenarioCollection _ eq_refl eq_refl Hin).
Defined.

Lemma convert_rows_app_witness :
  convertToGeoJson sampleParse sampleIsGeometryColumnName
    {| columns := columns twoRowResponse;
       values := [ [num 1; VString "POINT (1 2)"; num 5] ] |}
  = Normal {| features := [pointFeature {[ "id" := num 1; "count" := num 5 ]}] |}
  ∧ convertToGeoJson sampleParse sampleIsGeometryColumnName
      {| columns := columns twoRowResponse;
         values := [ [num 2; VString "POINT (1 2)"; num 6] ] |}
    = Normal {| features := [pointFeature {[ "id" := num 2; "count" := num 6 ]}] |}
  ∧ convertToGeoJson sampleParse sampleIsGeometryColumnName
      {| columns := columns twoRowResponse;
         values := [ [num 1; VString "POINT (1 2)"; num 5] ]
                   ++ [ [num 2; VString "POINT (1 2)"; num 6] ] |}
    = Normal {| features := [pointFeature {[ "id" := num 1; "count" := num 5 ]}]
                            ++ [pointFeature {[ "id" := num 2; "count" := num 6 ]}] |}.
Proof.
  assert (convertToGeoJson sampleParse sampleIsGeometryColumnName
            {| columns := columns twoRowResponse;
               values := [ [num 1; VString "POINT (1 2)"; num 5] ] |}
          = Normal {| features := [pointFeature {[ "id" := num 1; "count" := num 5 ]}] |})
    as Hfirst by (vm_compute; reflexivity).
  assert (convertToGeoJson sampleParse sampleIsGeometryColumnName
            {| columns := columns twoRowResponse;
               values := [ [num 2; VString "POINT (1 2)"; num 6] ] |}
          = Normal {| features := [pointFeature {[ "id" := num 2; "count" := num 6 ]}] |})
    as Hsecond by (vm_compute; reflexivity).
  split_and!; [exact Hfirst | exact Hsecond |].
  exact (convert_rows_app sampleParse sampleIsGeometryColumnName (columns twoRowResponse)
           _ _ _ _ Hfirst Hsecond).
Defined.

Lemma prototype_link_origin_witness :
  getGeometryColumnIndex sampleIsGeometryColumnName (columns protoObjectResponse)
  = Normal 0
  ∧ convertToGeoJson sampleParse sampleIsGeometryColumnName protoObjectResponse
    = Normal {| features :=
                  [ {| geometry := pointOneTwo;
                       properties :=
                         {| own := ∅;
                            proto := PrototypeValue
                                       (VObject [("polluted", VBoolean true)]) |} |} ] |}
  ∧ ∃ hit, hit ∈ values protoObjectResponse
      ∧ (∀ j c v, j ≠ 0 → columns protoObjectResponse !! j = Some c →
                  name c = "__proto__" → hit !! j = Some v →
                  PrototypeValue (VObject [("polluted", VBoolean true)])
                  = match v with
                    | VNull | VArray _ | VObject _ => PrototypeValue v
                    | _ => ObjectPrototype
                    end).
Proof.
  split_and!; [reflexivity | reflexivity |].
  destruct (prototype_link_origin sampleParse sampleIsGeometryColumnName
              protoObjectResponse 0 _
              {| geometry := pointOneTwo;
                 properties :=
                   {| own := ∅;
                      proto := PrototypeValue (VObject [("polluted", VBoolean true)]) |} |}
              eq_refl eq_refl ltac:(by left))
    as (hit & Hin & _ & _ & Hexact).
  exists hit. split; [exact Hin|]. apply Hexact.
  intros j1 j2 c1 c2 Hc1 Hc2 _ _ Hn1 Hn2.
  destruct j1 as [|[|j1]], j2 as [|[|j2]]; try discriminate;
    simpl in Hc1, Hc2; first [done | injection Hc1 as <-; discriminate Hn1
                              | injection Hc2 as <-; discriminate Hn2].
Defined.

Lemma distinct_names_exact_properties_witness :
  getGeometryColumnIndex sampleIsGeometryColumnName (columns twoRowResponse) = Normal 1
  ∧ NoDup (name <$> columns twoRowResponse)
  ∧ ("__proto__" ∉ (name <$> columns twoRowResponse))
  ∧ Forall (λ hit : ESQLRow, length hit = length (columns twoRowResponse))
           (values twoRowResponse)
  ∧ ∃ hit, hit ∈ values twoRowResponse
      ∧ processRow sampleParse 1 (columns twoRowResponse) hit
        = Pushed (pointFeature {[ "id" := num 1; "count" := num 5 ]})
      ∧ (∀ n v, own (properties (pointFeature {[ "id" := num 1; "count" := num 5 ]})) !! n
                = Some v
                ↔ ∃ j c, j ≠ 1 ∧ columns twoRowResponse !! j = Some c ∧ name c = n
                         ∧ hit !! j = Some v)
      ∧ size (own (properties (pointFeature {[ "id" := num 1; "count" := num 5 ]})))
        = length (columns twoRowResponse) - 1
      ∧ proto (properties (pointFeature {[ "id" := num 1; "count" := num 5 ]}))
        = ObjectPrototype.
Proof.
  assert (NoDup (name <$> columns twoRowResponse)) as Hdistinct
    by compute_done.
  assert ("__proto__" ∉ (name <$> columns twoRowResponse)) as Hproto
    by compute_done.
  assert (Forall (λ hit : ESQLRow, length hit = length (columns twoRowResponse))
            (values twoRowResponse)) as Hwf by (repeat constructor).
  split_and!; [reflexivity | exact Hdistinct | exact Hproto | exact Hwf |].
  assert (convertToGeoJson sampleParse sampleIsGeometryColumnName twoRowResponse
          = Normal {| features := [pointFeature {[ "id" := num 1; "count" := num 5 ]};
                                   pointFeature {[ "id" := num 2; "count" := num 6 ]}] |})
    as Hconverts by (vm_compute; reflexivity).
  apply (distinct_names_exact_properties sampleParse sampleIsGeometryColumnName
           twoRowResponse 1 _ _ eq_refl Hconverts Hdistinct Hproto Hwf).
  by left.
Defined.

(** ** A column called [__proto__] *)

(** While at most one visited non-geometry column is called [__proto__],
    the loop stores nothing under that key, and the accessor stays
    inherited until such a column has been visited. *)
Lemma prefix_proto_not_stored gi cols hit k p :
  (∀ j1 j2 c1 c2, cols !! j1 = Some c1 → cols !! j2 = Some c2 →
                  j1 ≠ gi → j2 ≠ gi →
                  name c1 = "__proto__" → name c2 = "__proto__" → j1 = j2) →
  forEach (propertiesStep gi cols hit) (seq 0 k) emptyObject = Normal p →
  own p !! "__proto__" = None
  ∧ (inheritsProtoAccessor (proto p) = false →
     ∃ j c, j < k ∧ j ≠ gi ∧ cols !! j = Some c ∧ name c = "__proto__").
Proof.
  intros Hone. revert p. induction k as [|k IH]; intros p.
  - intros [= <-]. split; [apply lookup_empty | discriminate].
  - rewrite prefix_S. intros Hp.
    apply bind_Normal_inv in Hp as (p' & Hp' & Hstep).
    destruct (IH _ Hp') as [Hown Hacc].
    apply propertiesStep_Normal in Hstep as [[_ ->]|(Hk & c & Hc & ->)].
    + split; [done|]. intros Hno.
      destruct (Hacc Hno) as (j & c & ? & ?). exists j, c. split; [lia | done].
    + destruct (decide (name c = "__proto__")) as [Hname|Hname].
      * assert (inheritsProtoAccessor (proto p') = true) as Hinh.
        { destruct (inheritsProtoAccessor (proto p')) eqn:Hinh; [done|].
          destruct (Hacc eq_refl) as (j & c' & Hj & Hne & Hc' & Hname').
          assert (j = k) by (by eapply (Hone j k c' c)). lia. }
        split.
        -- rewrite own_setProperty, decide_False; [done|].
           intros [_ [?| ?]]; congruence.
        -- intros _. exists k, c. split_and!; [lia | done..].
      * rewrite own_setProperty_insert by done. simpl.
        split; [by rewrite lookup_insert_ne|].
        destruct (proto_setProperty p' (name c) (at_index hit k)) as [-> |[? _]];
          [|done].
        intros Hno. destruct (Hacc Hno) as (j & c' & ? & ?).
        exists j, c'. split; [lia | done].
Qed.

Section ProtoColumn.

Variable parse : Value → Completion Value.
Variable isGeometryColumnName : string → bool.

(** X12 (a column called [__proto__] is not stored).  When at most one
    column other than the geometry column is called [__proto__], no feature
    of the result has an own property of that name, whatever the cells
    under that column hold. *)
Theorem proto_column_is_not_stored resp gi fc f :
  getGeometryColumnIndex isGeometryColumnName (columns resp) = Normal gi →
  convertToGeoJson parse isGeometryColumnName resp = Normal fc →
  (∀ j1 j2 c1 c2, columns resp !! j1 = Some c1 → columns resp !! j2 = Some c2 →
                  j1 ≠ gi → j2 ≠ gi →
                  name c1 = "__proto__" → name c2 = "__proto__" → j1 = j2) →
  f ∈ features fc →
  own (properties f) !! "__proto__" = None.
Proof.
  intros Hgi Hfc Hone Hf. rewrite (convertToGeoJson_features _ _ _ _ _ Hgi Hfc) in Hf.
  apply elem_of_collectFeatures in Hf as (hit & _ & Hrow).
  apply processRow_Pushed_inv in Hrow as (_ & _ & Hp).
  by destruct (prefix_proto_not_stored _ _ _ _ _ Hone Hp).
Qed.

End ProtoColumn.

Lemma proto_column_is_not_stored_witness :
  getGeometryColumnIndex sampleIsGeometryColumnName (columns protoNameResponse) = Normal 0
  ∧ convertToGeoJson sampleParse sampleIsGeometryColumnName protoNameResponse
    = Normal {| features := [pointFeature {[ "count" := num 5 ]}] |}
  ∧ own (properties (pointFeature {[ "count" := num 5 ]})) !! "__proto__" = None.
Proof.
  split_and!; [reflexivity | reflexivity |].
  apply (proto_column_is_not_stored sampleParse sampleIsGeometryColumnName
           protoNameResponse 0 {| features := [pointFeature {[ "count" := num 5 ]}] |}
           _ eq_refl eq_refl); [|by left].
  intros j1 j2 c1 c2 Hc1 Hc2 _ _ Hn1 Hn2.
  destruct j1 as [|[|[|j1]]], j2 as [|[|[|j2]]]; try discriminate;
    simpl in Hc1, Hc2; first [done | injection Hc1 as <-; discriminate Hn1
                              | injection Hc2 as <-; discriminate Hn2].
Defined.

Lemma entity_name_is_never_nullish_witness :
  getEntityData userRiskScore = Normal (VObject [("name", VString "alice")])
  ∧ lookupField [("name", VString "alice")] "name" ≠ VUndefined
  ∧ lookupField [("name", VString "alice")] "name" ≠ VNull
  ∧ entityName (VObject [("name", VString "alice")]) = Normal (VString "alice").
Proof.
  split_and!; [reflexivity | discriminate | discriminate |].
  destruct (entity_name_is_never_nullish userRiskScore)
    as (entity & n & [= <-] & Hname & _ & _ & Hobject & _).
  rewrite Hname. f_equal.
  apply (proj1 (Hobject _ eq_refl)); discriminate.
Defined.
